(** * MeterItPro: the local/remote synchronisation subsystem

    A shallow embedding of
      - [sync/frontend/src/types/connection.ts] and the [useConnectionStatus]
        hook (the connectivity monitor),
      - [sync/api/src/config/database.ts] (the two connection pools),
      - the route handlers of [sync/api/src/server.ts],
    together with the properties of the synchronisation specification that
    they decide.

    Asynchronous code is embedded in the order in which its [await]s
    complete; a rejected promise is a thrown value.  The two PostgreSQL
    databases, the clock and the network are the environment: they are part
    of the explicit state the embedded functions take and return. *)

From stdpp Require Import base numbers option list strings gmap sorting pretty.

Open Scope string_scope.
Open Scope Z_scope.

(** ** Connectivity monitor (types/connection.ts, hooks/useConnectionStatus) *)

Module Monitor.

(** [enum ConnectionState] *)
Inductive ConnectionState : Set :=
  | CHECKING
  | CONNECTED
  | DISCONNECTED
  | ERROR.

Global Instance ConnectionState_eq_dec : EqDecision ConnectionState.
Proof. solve_decision. Defined.

(** [interface ConnectionStatusState] *)
Record ConnectionStatusState : Set := mkStatus {
  syncDb : ConnectionState;
  remoteDb : ConnectionState;
  remoteApi : ConnectionState;
}.

Definition CHECK_INTERVAL : Z := 60000.
Definition CHECK_TIMEOUT : Z := 5000.

(** The state [useState] starts from. *)
Definition initial_status : ConnectionStatusState :=
  {| syncDb := CHECKING; remoteDb := CHECKING; remoteApi := CHECKING |}.

(** What the network does with one request: it answers with an HTTP status
    after some milliseconds, it fails after some milliseconds, or it never
    settles. *)
Inductive Network : Set :=
  | Responds (after_ms : Z) (http_status : Z)
  | Fails (after_ms : Z)
  | Hangs.

(** How a [fetch] promise settles. *)
Inductive Rejection : Set := AbortError | NetworkError.

Inductive FetchResult : Set :=
  | Response (http_status : Z)
  | Rejected (why : Rejection).

(** [fetch(endpoint, { signal })] with [setTimeout(() => controller.abort(),
    timeout)] armed before it: the request settles as the network says if
    that happens before the timer fires, and rejects with an abort at the
    moment the timer fires otherwise.  The second component is the time at
    which the promise settles. *)
Definition fetch (net : Network) (timeout : Z) : FetchResult * Z :=
  match net with
  | Responds t st =>
      if bool_decide (t < timeout) then (Response st, t)
      else (Rejected AbortError, timeout)
  | Fails t =>
      if bool_decide (t < timeout) then (Rejected NetworkError, t)
      else (Rejected AbortError, timeout)
  | Hangs => (Rejected AbortError, timeout)
  end.

(** [Response.ok]: the status is in the range 200-299. *)
Definition ok (http_status : Z) : bool :=
  bool_decide (200 ≤ http_status) && bool_decide (http_status ≤ 299).

(** [checkConnection(endpoint, timeout = CHECK_TIMEOUT)], with the time at
    which its promise resolves.  Both the [try] and the [catch] branch
    return, so the promise never rejects. *)
Definition checkConnection_timed (net : Network) (timeout : Z) : bool * Z :=
  match fetch net timeout with
  | (Response st, t) => (ok st, t)
  | (Rejected _, t) => (false, t)
  end.

Definition checkConnection (net : Network) (timeout : Z) : bool :=
  fst (checkConnection_timed net timeout).

(** The three health endpoints probed by one pass. *)
Inductive Endpoint : Set :=
  | health_sync_db      (* /api/health/sync-db *)
  | health_remote_db    (* /api/health/remote-db *)
  | local_sync_status.  (* /api/local/sync-status *)

Definition endpoint_path (e : Endpoint) : string :=
  match e with
  | health_sync_db => "/api/health/sync-db"
  | health_remote_db => "/api/health/remote-db"
  | local_sync_status => "/api/local/sync-status"
  end.

(** [syncDbConnected ? ConnectionState.CONNECTED : ConnectionState.DISCONNECTED] *)
Definition state_of (connected : bool) : ConnectionState :=
  if connected then CONNECTED else DISCONNECTED.

(** The three functional updates [setStatus(prev => ({ ...prev, f: v }))]. *)
Definition set_syncDb (v : ConnectionState) (prev : ConnectionStatusState) :=
  {| syncDb := v; remoteDb := remoteDb prev; remoteApi := remoteApi prev |}.
Definition set_remoteDb (v : ConnectionState) (prev : ConnectionStatusState) :=
  {| syncDb := syncDb prev; remoteDb := v; remoteApi := remoteApi prev |}.
Definition set_remoteApi (v : ConnectionState) (prev : ConnectionStatusState) :=
  {| syncDb := syncDb prev; remoteDb := remoteDb prev; remoteApi := v |}.

(** [checkAllConnections]: the three probes in sequence, each followed by
    its state update.  [net] is what the network does with each of the three
    requests of this pass. *)
Definition checkAllConnections (net : Endpoint → Network)
    (prev : ConnectionStatusState) : ConnectionStatusState :=
  let syncDbConnected := checkConnection (net health_sync_db) CHECK_TIMEOUT in
  let s1 := set_syncDb (state_of syncDbConnected) prev in
  let remoteDbConnected := checkConnection (net health_remote_db) CHECK_TIMEOUT in
  let s2 := set_remoteDb (state_of remoteDbConnected) s1 in
  let remoteApiConnected := checkConnection (net local_sync_status) CHECK_TIMEOUT in
  set_remoteApi (state_of remoteApiConnected) s2.

(** The hook's life: the initial check of [useEffect], then one pass per
    tick of [setInterval]; [passes] lists the network's behaviour at each. *)
Definition run_monitor (passes : list (Endpoint → Network)) : ConnectionStatusState :=
  foldl (λ st net, checkAllConnections net st) initial_status passes.

Definition isAllConnected (status : ConnectionStatusState) : bool :=
  bool_decide (syncDb status = CONNECTED) &&
  bool_decide (remoteDb status = CONNECTED) &&
  bool_decide (remoteApi status = CONNECTED).

Definition isRemoteSystemConnected (status : ConnectionStatusState) : bool :=
  bool_decide (remoteDb status = CONNECTED) &&
  bool_decide (remoteApi status = CONNECTED).

(** The state the hook keeps for an endpoint. *)
Definition endpoint_state (e : Endpoint) (status : ConnectionStatusState)
    : ConnectionState :=
  match e with
  | health_sync_db => syncDb status
  | health_remote_db => remoteDb status
  | local_sync_status => remoteApi status
  end.

(** A request that is answered with a 2xx status before the timer fires. *)
Definition answered_2xx_in_time (net : Network) (timeout : Z) : Prop :=
  ∃ t st, net = Responds t st ∧ t < timeout ∧ 200 ≤ st ≤ 299.

End Monitor.

(** ** JavaScript values and control flow *)

Module Js.

(** The values a JSON request body can give to a field; [Undefined] is a
    field that is not there.  [Num] is an integer (a tenant identifier is
    one); [Other] is any value that is left, an object, an array or a
    number with a fraction, given by the text that [String(v)] makes of
    it. *)
Inductive Value : Set :=
  | Undefined
  | Null
  | Bool (b : bool)
  | Num (z : Z)
  | Str (s : string)
  | Other (text : string).

(** Truthiness, as [!v] and [v || w] test it. *)
Definition truthy (v : Value) : bool :=
  match v with
  | Undefined | Null => false
  | Bool b => b
  | Num z => negb (bool_decide (z = 0))
  | Str s => negb (bool_decide (s = ""))
  | Other _ => true
  end.

(** The string a template literal [`${v}`] puts in place of [v].  Every
    number is printed in full; JavaScript prints one of 22 digits or more
    with an exponent. *)
Definition to_string (v : Value) : string :=
  match v with
  | Undefined => "undefined"
  | Null => "null"
  | Bool true => "true"
  | Bool false => "false"
  | Num z => pretty z
  | Str s => s
  | Other text => text
  end.

(** [m || fallback] on a nullable string (a [text] column read by [pg]):
    [null] and the empty string are both falsy. *)
Definition or_string (m : option string) (fallback : string) : string :=
  match m with
  | Some s => if bool_decide (s = "") then fallback else s
  | None => fallback
  end.

(** [m || null] on a nullable string. *)
Definition or_null (m : option string) : option string :=
  match m with
  | Some s => if bool_decide (s = "") then None else Some s
  | None => None
  end.

(** A thrown [Error] and its [message]. *)
Inductive Thrown : Set := Error (message : string).

Definition message (e : Thrown) : string := let 'Error m := e in m.

(** How a block of statements (or an awaited promise) ends. *)
Inductive Completion (A : Type) : Type :=
  | Normal (a : A)
  | Throw (e : Thrown).
Global Arguments Normal {A} a.
Global Arguments Throw {A} e.

(** Calling [.query] on a variable that holds [undefined]. *)
Definition TypeError_query : Thrown :=
  Error "Cannot read properties of undefined (reading 'query')".

End Js.

(** ** The two databases and their pools (config/database.ts) *)

Module Db.

(** A row of the [tenant] table, with the columns the statements name. *)
Record Tenant : Set := mkTenant {
  tenant_id : Z;
  name : option string;
  url : option string;
  street : option string;
  street2 : option string;
  city : option string;
  state : option string;
  zip : option string;
  country : option string;
  active : option bool;
  api_key : option string;
}.

(** A row of [meter_reading], with the columns of /api/local/readings. *)
Record MeterReading : Set := mkReading {
  meter_reading_id : Z;
  meter_id : Z;
  created_at : Z;
  sync_status : string;
  is_synchronized : bool;
  retry_count : Z;
}.

(** A row of [sync_log]; [synced_at] is the completion time in
    milliseconds. *)
Record SyncLog : Set := mkSyncLog {
  id : Z;
  operation_type : string;
  batch_size : Z;
  success : bool;
  error_message : option string;
  synced_at : Z;
}.

(** The local (sync) database.  [l_fault] is [Some msg] while the server
    cannot be reached: every query then rejects with that message.  The
    [tenant] table has a unique [tenant_id] (the conflict target of the
    upsert), hence a finite map. *)
Record LocalDb : Type := mkLocalDb {
  l_fault : option string;
  l_tenant : gmap Z Tenant;
  l_meter_reading : list MeterReading;
  l_sync_log : list SyncLog;
}.

(** The remote (client) database. *)
Record RemoteDb : Type := mkRemoteDb {
  r_fault : option string;
  r_tenant : list Tenant;
}.

(** The options both [new Pool({...})] calls fix; host, port and
    credentials come from the process environment and play no part in
    what follows. *)
Record Pool : Set := mkPool {
  max : Z;
  idleTimeoutMillis : Z;
  connectionTimeoutMillis : Z;
}.

Definition new_Pool : Pool :=
  {| max := 5; idleTimeoutMillis := 10000; connectionTimeoutMillis := 5000 |}.

(** The SQL statements the code sends. *)
Inductive Statement : Set :=
  | SelectNow                                 (* SELECT NOW() *)
  | SelectOne                                 (* SELECT 1 *)
  | SelectTenantById (param : Js.Value)       (* ... FROM tenant WHERE tenant_id = $1 *)
  | UpsertTenant (row : Tenant)               (* INSERT INTO tenant ... ON CONFLICT ... *)
  | CountUnsynchronized                       (* SELECT COUNT( * ) ... is_synchronized = false *)
  | RecentSyncLogs                            (* ... FROM sync_log ORDER BY synced_at DESC LIMIT 10 *)
  | LastUpload.                               (* ... WHERE operation_type = 'upload' ... LIMIT 1 *)

Inductive Store : Set := Local | Remote.

(** One statement sent to one of the stores. *)
Definition Access : Set := Store * Statement.

Inductive Level : Set := LOG | WARN | ERROR.

(** The process: the module variables [syncPool] and [remotePool]
    ([undefined] until assigned), the two databases, the clock read by
    [new Date()], the statements sent so far (oldest first) and the console
    lines in which [initializePools] reports its two connection tests
    (their text without the leading pictograph and the value printed after
    it). *)
Record World : Type := mkWorld {
  syncPool : option Pool;
  remotePool : option Pool;
  localDb : LocalDb;
  remoteDb : RemoteDb;
  clock : Z;
  trace : list Access;
  console : list (Level * string);
}.

(** What [pg] hands back: the rows and the row count of the command tag. *)
Record QueryResult (A : Type) : Type := mkResult {
  rows : list A;
  rowCount : Z;
}.
Global Arguments mkResult {A} rows rowCount.
Global Arguments rows {A} _.
Global Arguments rowCount {A} _.

(** A [SELECT]: the count is the number of rows returned. *)
Definition selected {A} (l : list A) : QueryResult A :=
  {| rows := l; rowCount := Z.of_nat (length l) |}.

End Db.

(** ** Running code against the process state *)

Module Run.
Import Db.

(** A computation reads and updates the process state and either completes
    with a value or throws. *)
Definition M (A : Type) : Type := World → Js.Completion A * World.

Definition ret {A} (a : A) : M A := λ w, (Js.Normal a, w).

Definition throw {A} (e : Js.Thrown) : M A := λ w, (Js.Throw e, w).

Definition bind {A B} (m : M A) (k : A → M B) : M B :=
  λ w, match m w with
       | (Js.Normal a, w') => k a w'
       | (Js.Throw e, w') => (Js.Throw e, w')
       end.

(** [try { m } catch (error) { handler(error) }] *)
Definition try_catch {A} (m : M A) (handler : Js.Thrown → M A) : M A :=
  λ w, match m w with
       | (Js.Normal a, w') => (Js.Normal a, w')
       | (Js.Throw e, w') => handler e w'
       end.

(** Reading a module variable or the clock. *)
Definition read {A} (f : World → A) : M A := λ w, (Js.Normal (f w), w).

Definition modify (f : World → World) : M unit := λ w, (Js.Normal tt, f w).

Declare Scope run_scope.
Delimit Scope run_scope with run.
Notation "'let!' x := m 'in' k" := (bind m (λ x, k))
  (at level 10, x name, m at level 100, k at level 200) : run_scope.
Notation "m ;; k" := (bind m (λ _, k))
  (at level 100, k at level 200, right associativity) : run_scope.
Open Scope run_scope.

Definition set_localDb (db : LocalDb) (w : World) : World :=
  {| syncPool := syncPool w; remotePool := remotePool w; localDb := db;
     remoteDb := remoteDb w; clock := clock w; trace := trace w;
     console := console w |}.

Definition set_syncPool (p : option Pool) (w : World) : World :=
  {| syncPool := p; remotePool := remotePool w; localDb := localDb w;
     remoteDb := remoteDb w; clock := clock w; trace := trace w;
     console := console w |}.

Definition set_remotePool (p : option Pool) (w : World) : World :=
  {| syncPool := syncPool w; remotePool := p; localDb := localDb w;
     remoteDb := remoteDb w; clock := clock w; trace := trace w;
     console := console w |}.

Definition sent (a : Access) (w : World) : World :=
  {| syncPool := syncPool w; remotePool := remotePool w; localDb := localDb w;
     remoteDb := remoteDb w; clock := clock w; trace := trace w ++ [a];
     console := console w |}.

Definition printed (l : Level) (line : string) (w : World) : World :=
  {| syncPool := syncPool w; remotePool := remotePool w; localDb := localDb w;
     remoteDb := remoteDb w; clock := clock w; trace := trace w;
     console := console w ++ [(l, line)] |}.

(** The environment moving on between two requests: time passes. *)
Definition at_time (t : Z) (w : World) : World :=
  {| syncPool := syncPool w; remotePool := remotePool w; localDb := localDb w;
     remoteDb := remoteDb w; clock := t; trace := trace w;
     console := console w |}.

(** [await syncPool.query(stmt)].  On [undefined] the member access throws
    before anything is sent; otherwise the statement is sent, and rejects
    if the database cannot be reached.  [exec] is what the statement does
    to the database once it gets there. *)
Definition syncPool_query {A} (stmt : Statement)
    (exec : LocalDb → Js.Completion A * LocalDb) : M A :=
  λ w, match syncPool w with
       | None => (Js.Throw Js.TypeError_query, w)
       | Some _ =>
         let w := sent (Local, stmt) w in
         match l_fault (localDb w) with
         | Some msg => (Js.Throw (Js.Error msg), w)
         | None =>
           let '(r, db) := exec (localDb w) in (r, set_localDb db w)
         end
       end.

(** [await remotePool.query(stmt)]; the code only reads from the remote
    database. *)
Definition remotePool_query {A} (stmt : Statement)
    (exec : RemoteDb → Js.Completion A) : M A :=
  λ w, match remotePool w with
       | None => (Js.Throw Js.TypeError_query, w)
       | Some _ =>
         let w := sent (Remote, stmt) w in
         match r_fault (remoteDb w) with
         | Some msg => (Js.Throw (Js.Error msg), w)
         | None => (exec (remoteDb w), w)
         end
       end.

(** The local database answers statements: the pool variable is assigned
    and the server can be reached.  Likewise for the remote one. *)
Definition local_answers (w : World) : bool :=
  bool_decide (is_Some (syncPool w)) &&
  bool_decide (l_fault (localDb w) = None).

Definition remote_answers (w : World) : bool :=
  bool_decide (is_Some (remotePool w)) &&
  bool_decide (r_fault (remoteDb w) = None).

(** [SELECT NOW()] (the databases share the process's clock) and
    [SELECT 1] *)
Definition select_now (now : Z) : QueryResult Z := selected [now].
Definition select_one : QueryResult Z := selected [1].

End Run.

(** ** config/database.ts *)

Module Database.
Import Db Run.

(** [initializePools]: both pools are created (creating a pool opens no
    connection), then each is tried with [SELECT NOW()] inside its own
    [try]/[catch]. *)
Definition initializePools : M unit :=
  modify (set_syncPool (Some new_Pool));;
  modify (set_remotePool (Some new_Pool));;
  try_catch
    (let! now := read clock in
     let! syncResult := syncPool_query SelectNow
        (λ db, (Js.Normal (select_now now), db)) in
     modify (printed LOG "[Database] Sync database connected:"))
    (λ err, modify (printed ERROR "[Database] Failed to connect to sync database:"));;
  try_catch
    (let! now := read clock in
     let! remoteResult := remotePool_query SelectNow
        (λ db, Js.Normal (select_now now)) in
     modify (printed LOG "[Database] Remote database connected:"))
    (λ err, modify (printed WARN "[Database] Failed to connect to remote database:")).

(** The process before [startServer] runs: nothing assigned, nothing sent,
    nothing printed. *)
Definition boot (l : LocalDb) (r : RemoteDb) (now : Z) : World :=
  {| syncPool := None; remotePool := None; localDb := l; remoteDb := r;
     clock := now; trace := []; console := [] |}.

(** How [startServer] ends: listening on 127.0.0.1, or [process.exit(1)]
    from its [catch]. *)
Inductive Startup : Set := Listening | Exited (code : Z).

Definition startServer : World → Startup * World :=
  λ w, match initializePools w with
       | (Js.Normal _, w') => (Listening, w')
       | (Js.Throw _, w') => (Exited 1, w')
       end.

(** The console line each connection test leaves. *)
Definition sync_test_line (l : LocalDb) : Level * string :=
  match l_fault l with
  | Some _ => (ERROR, "[Database] Failed to connect to sync database:")
  | None => (LOG, "[Database] Sync database connected:")
  end.

Definition remote_test_line (r : RemoteDb) : Level * string :=
  match r_fault r with
  | Some _ => (WARN, "[Database] Failed to connect to remote database:")
  | None => (LOG, "[Database] Remote database connected:")
  end.

End Database.

(** ** server.ts: responses *)

Module Http.

(** [res.status(status).json(json)] *)
Record Response (B : Type) : Type := mkResponse {
  status : Z;
  json : B;
}.
Global Arguments mkResponse {B} status json.
Global Arguments status {B} _.
Global Arguments json {B} _.

(** [res.json(b)] answers with status 200. *)
Definition res_json {B} (b : B) : Response B := mkResponse 200 b.

End Http.

(** ** server.ts: POST /api/local/tenant-sync *)

Module TenantSync.
Import Run.

Record SyncResult : Set := mkSyncResult {
  inserted : Z;
  updated : Z;
  timestamp : Z;
}.

(** [tenant_data] of the response: the local row without its [api_key]. *)
Record TenantData : Set := mkTenantData {
  tenant_id : Z;
  name : option string;
  url : option string;
  street : option string;
  street2 : option string;
  city : option string;
  state : option string;
  zip : option string;
  country : option string;
  active : option bool;
}.

(** The JSON bodies of the route. *)
Inductive Body : Set :=
  | Synced (message : string) (sync_result : SyncResult) (tenant_data : TenantData)
                                              (* { success: true, ... } *)
  | Failed (error : string)                   (* { success: false, error } *)
  | FailedAt (error : string) (failed_at : Z).
                                              (* { success: false, error, timestamp } *)

Definition success (b : Body) : bool :=
  match b with Synced _ _ _ => true | _ => false end.

(** [ON CONFLICT (tenant_id) DO UPDATE SET name = EXCLUDED.name, ...]: the
    row already there keeps its [tenant_id] and takes the ten other columns
    of the proposed row [t]. *)
Definition conflict_update (old t : Db.Tenant) : Db.Tenant :=
  {| Db.tenant_id := Db.tenant_id old;
     Db.name := Db.name t;
     Db.url := Db.url t;
     Db.street := Db.street t;
     Db.street2 := Db.street2 t;
     Db.city := Db.city t;
     Db.state := Db.state t;
     Db.zip := Db.zip t;
     Db.country := Db.country t;
     Db.active := Db.active t;
     Db.api_key := Db.api_key t |}.

(** The row the table holds under [t]'s identifier after the statement. *)
Definition upserted_row (t : Db.Tenant) (table : gmap Z Db.Tenant) : Db.Tenant :=
  match table !! Db.tenant_id t with
  | None => t
  | Some old => conflict_update old t
  end.

Definition upserted (t : Db.Tenant) (db : Db.LocalDb) : Db.LocalDb :=
  {| Db.l_fault := Db.l_fault db;
     Db.l_tenant :=
       <[Db.tenant_id t := upserted_row t (Db.l_tenant db)]> (Db.l_tenant db);
     Db.l_meter_reading := Db.l_meter_reading db;
     Db.l_sync_log := Db.l_sync_log db |}.

(** The local statement [INSERT INTO tenant ... ON CONFLICT (tenant_id) DO
    UPDATE SET ... RETURNING *]: the row is inserted, or the row with the
    same [tenant_id] is updated; [RETURNING *] gives the row as it is
    afterwards.  PostgreSQL's command tag for [INSERT] counts the rows
    inserted or updated, so the row count is 1 on both paths. *)
Definition upsert_tenant (t : Db.Tenant) (db : Db.LocalDb)
    : Js.Completion (Db.QueryResult Db.Tenant) * Db.LocalDb :=
  (Js.Normal {| Db.rows := [upserted_row t (Db.l_tenant db)];
                Db.rowCount := 1 |},
   upserted t db).

Section route.

(** How the driver and the server read the request's value as a
    [tenant_id]: [None] when the server refuses its text form, which makes
    the query reject. *)
Variable tenant_key : Js.Value → option Z.

(** The remote statement [... FROM tenant WHERE tenant_id = $1]. *)
Definition select_tenant_by_id (param : Js.Value) (db : Db.RemoteDb)
    : Js.Completion (Db.QueryResult Db.Tenant) :=
  match tenant_key param with
  | None => Js.Throw (Js.Error "invalid input syntax for tenant_id")
  | Some k =>
    Js.Normal (Db.selected
      (filter (λ t, Db.tenant_id t = k) (Db.r_tenant db)))
  end.

(** The body of the handler's [try] block; [tenant_id] is
    [req.body.tenant_id]. *)
Definition route (tenant_id : Js.Value) : M (Http.Response Body) :=
  if negb (Js.truthy tenant_id) then
    ret (Http.mkResponse 400 (Failed "tenant_id is required"))
  else
    let! pool := read Db.remotePool in
    match pool with
    | None =>
      ret (Http.mkResponse 503 (Failed "Remote database pool not available"))
    | Some _ =>
      let! remoteResult :=
        remotePool_query (Db.SelectTenantById tenant_id)
                         (select_tenant_by_id tenant_id) in
      match Db.rows remoteResult with
      | [] =>
        ret (Http.mkResponse 404
               (Failed ("Tenant " +:+ Js.to_string tenant_id +:+
                        " not found in remote database")))
      | remoteTenant :: _ =>
        let! upsertResult :=
          syncPool_query (Db.UpsertTenant remoteTenant)
                         (upsert_tenant remoteTenant) in
        match Db.rows upsertResult with
        | [] =>
          throw (Js.Error
            "Cannot read properties of undefined (reading 'tenant_id')")
        | localTenant :: _ =>
          let! now := read Db.clock in
          ret (Http.res_json
            (Synced "Tenant sync completed successfully"
               {| inserted := if bool_decide (Db.rowCount upsertResult = 1)
                              then 1 else 0;
                  updated := if bool_decide (Db.rowCount upsertResult = 1)
                             then 0 else 1;
                  timestamp := now |}
               {| tenant_id := Db.tenant_id localTenant;
                  name := Db.name localTenant;
                  url := Db.url localTenant;
                  street := Db.street localTenant;
                  street2 := Db.street2 localTenant;
                  city := Db.city localTenant;
                  state := Db.state localTenant;
                  zip := Db.zip localTenant;
                  country := Db.country localTenant;
                  active := Db.active localTenant |}))
        end
      end
    end.

(** The handler: the [try] block, and the [catch] that answers 500 with
    the error's message and the time. *)
Definition handler (tenant_id : Js.Value) (w : Db.World)
    : Http.Response Body * Db.World :=
  match route tenant_id w with
  | (Js.Normal response, w') => (response, w')
  | (Js.Throw error, w') =>
    (Http.mkResponse 500 (FailedAt (Js.message error) (Db.clock w')), w')
  end.

(** What the remote database answers to the lookup once the statement is
    sent to it. *)
Definition remote_lookup (tenant_id : Js.Value) (w : Db.World)
    : Js.Completion (list Db.Tenant) :=
  match Db.r_fault (Db.remoteDb w) with
  | Some msg => Js.Throw (Js.Error msg)
  | None =>
    match select_tenant_by_id tenant_id (Db.remoteDb w) with
    | Js.Normal result => Js.Normal (Db.rows result)
    | Js.Throw e => Js.Throw e
    end
  end.

(** The status the request gets according to the four cases of the
    interface description, read as they are written: 400 for a body without
    [tenant_id], 503 without a remote pool, 404 when the remote table has no
    row for the identifier, and 200 otherwise. *)
Definition status_as_described (tenant_id : Js.Value) (w : Db.World) : Z :=
  match tenant_id with
  | Js.Undefined => 400
  | _ =>
    match Db.remotePool w with
    | None => 503
    | Some _ =>
      match tenant_key tenant_id with
      | Some k =>
        if bool_decide (filter (λ t, Db.tenant_id t = k)
                               (Db.r_tenant (Db.remoteDb w)) = [])
        then 404 else 200
      | None => 404
      end
    end
  end.

End route.

(** The row a response's [tenant_data] was taken from has these columns. *)
Definition data_of (row : Db.Tenant) : TenantData :=
  {| tenant_id := Db.tenant_id row; name := Db.name row; url := Db.url row;
     street := Db.street row; street2 := Db.street2 row; city := Db.city row;
     state := Db.state row; zip := Db.zip row; country := Db.country row;
     active := Db.active row |}.

(** Two rows agree on the ten columns that the upsert assigns. *)
Definition same_mirrored_fields (a b : Db.Tenant) : Prop :=
  Db.name a = Db.name b ∧ Db.url a = Db.url b ∧
  Db.street a = Db.street b ∧ Db.street2 a = Db.street2 b ∧
  Db.city a = Db.city b ∧ Db.state a = Db.state b ∧
  Db.zip a = Db.zip b ∧ Db.country a = Db.country b ∧
  Db.active a = Db.active b ∧ Db.api_key a = Db.api_key b.

End TenantSync.

(** ** server.ts: the status routes *)

(** The ordering of [ORDER BY synced_at DESC]: [a] may come before [b]. *)
Definition more_recent (a b : Db.SyncLog) : Prop :=
  Db.synced_at b ≤ Db.synced_at a.

Global Instance more_recent_dec a b : Decision (more_recent a b).
Proof. unfold more_recent. apply _. Defined.

(** The statements of the two status routes. *)
Module Sql.

(** [SELECT COUNT( * ) as count FROM meter_reading WHERE is_synchronized =
    false]; the driver hands the count over in decimal and [parseInt] reads
    it back, which is the count itself. *)
Definition count_unsynchronized (db : Db.LocalDb) : Db.QueryResult Z :=
  Db.selected
    [Z.of_nat (length (filter (λ r, Db.is_synchronized r = false)
                              (Db.l_meter_reading db)))].

(** [... FROM sync_log ORDER BY synced_at DESC LIMIT 10] *)
Definition recent_sync_logs (db : Db.LocalDb) : Db.QueryResult Db.SyncLog :=
  Db.selected (take 10 (merge_sort more_recent (Db.l_sync_log db))).

(** [... FROM sync_log WHERE operation_type = 'upload' ORDER BY synced_at
    DESC LIMIT 1] *)
Definition last_upload (db : Db.LocalDb) : Db.QueryResult Db.SyncLog :=
  Db.selected
    (take 1 (merge_sort more_recent
               (filter (λ l, Db.operation_type l = "upload")
                       (Db.l_sync_log db)))).

End Sql.

(** The probe both status routes end with:
    [try { await remotePool.query('SELECT 1'); c = true } catch { c = false }] *)
Definition remote_probe : Run.M bool :=
  Run.try_catch
    (Run.bind (Run.remotePool_query Db.SelectOne (λ _, Js.Normal Run.select_one))
              (λ _, Run.ret true))
    (λ _, Run.ret false).

(** [queueResult.rows[0].count]; reading a field of [undefined] throws. *)
Definition first_count (r : Db.QueryResult Z) : Run.M Z :=
  match Db.rows r with
  | n :: _ => Run.ret n
  | [] => Run.throw (Js.Error "Cannot read properties of undefined (reading 'count')")
  end.

(** GET /api/local/sync-status *)
Module SyncStatus.
Import Run.

(** One element of [sync_errors]. *)
Record SyncError : Set := mkSyncError {
  sync_log_id : Z;
  batch_size : Z;
  error_message : string;
  synced_at : Z;
}.

Record Status : Set := mkStatus {
  is_connected : bool;
  last_sync_at : option Z;
  queue_size : Z;
  sync_errors : list SyncError;
}.

Inductive Body : Set :=
  | Report (s : Status)
  | Failed (error : string).          (* { error } *)

(** The callback of [.map] over the failed logs. *)
Definition as_error (log : Db.SyncLog) : SyncError :=
  {| sync_log_id := Db.id log;
     batch_size := Db.batch_size log;
     error_message := Js.or_string (Db.error_message log) "Unknown error";
     synced_at := Db.synced_at log |}.

Definition route : M (Http.Response Body) :=
  let! queueResult :=
    syncPool_query Db.CountUnsynchronized
      (λ db, (Js.Normal (Sql.count_unsynchronized db), db)) in
  let! queueSize := first_count queueResult in
  let! logsResult :=
    syncPool_query Db.RecentSyncLogs
      (λ db, (Js.Normal (Sql.recent_sync_logs db), db)) in
  let recentLogs := Db.rows logsResult in
  let successfulLogs := filter (λ log, Db.success log) recentLogs in
  let lastSuccessfulSync :=
    match successfulLogs with
    | log :: _ => Some (Db.synced_at log)
    | [] => None
    end in
  let errorLogs :=
    as_error <$> take 10 (filter (λ log, ¬ Db.success log) recentLogs) in
  let! isConnected := remote_probe in
  ret (Http.res_json (Report
    {| is_connected := isConnected;
       last_sync_at := lastSuccessfulSync;
       queue_size := queueSize;
       sync_errors := errorLogs |})).

Definition handler (w : Db.World) : Http.Response Body * Db.World :=
  match route w with
  | (Js.Normal response, w') => (response, w')
  | (Js.Throw error, w') =>
    (Http.mkResponse 500 (Failed (Js.message error)), w')
  end.

End SyncStatus.

(** GET /api/sync/meter-reading-upload/status *)
Module UploadStatus.
Import Run.

Record Status : Set := mkStatus {
  is_running : bool;
  last_upload_time : option Z;
  last_upload_success : option bool;
  last_upload_error : option string;
  queue_size : Z;
  total_uploaded : Z;
  total_failed : Z;
  is_client_connected : bool;
}.

Inductive Body : Set :=
  | Report (s : Status)
  | Failed (error : string).          (* { error } *)

Definition route : M (Http.Response Body) :=
  let! queueResult :=
    syncPool_query Db.CountUnsynchronized
      (λ db, (Js.Normal (Sql.count_unsynchronized db), db)) in
  let! queueSize := first_count queueResult in
  let! lastUploadResult :=
    syncPool_query Db.LastUpload
      (λ db, (Js.Normal (Sql.last_upload db), db)) in
  let lastUpload := head (Db.rows lastUploadResult) in
  let! isClientConnected := remote_probe in
  ret (Http.res_json (Report
    {| is_running := false;
       (* a [Date] is never falsy: [lastUpload?.synced_at || null] *)
       last_upload_time := Db.synced_at <$> lastUpload;
       (* [lastUpload?.success ?? null] *)
       last_upload_success := Db.success <$> lastUpload;
       (* [lastUpload?.error_message || null] *)
       last_upload_error := lastUpload ≫= (λ l, Js.or_null (Db.error_message l));
       queue_size := queueSize;
       total_uploaded := 0;
       total_failed := 0;
       is_client_connected := isClientConnected |})).

Definition handler (w : Db.World) : Http.Response Body * Db.World :=
  match route w with
  | (Js.Normal response, w') => (response, w')
  | (Js.Throw error, w') =>
    (Http.mkResponse 500 (Failed (Js.message error)), w')
  end.

End UploadStatus.

(** [recent] is what [ORDER BY synced_at DESC LIMIT 10] may return on
    [log]: at most ten rows of it, most recent first, and no row left out
    is more recent than a row taken; rows are left out only when ten are
    taken. *)
Definition ten_most_recent (log recent : list Db.SyncLog) : Prop :=
  StronglySorted more_recent recent ∧
  (length recent ≤ 10)%nat ∧
  ∃ older,
    log ≡ₚ recent ++ older ∧
    (older ≠ [] → length recent = 10%nat) ∧
    ∀ x y, x ∈ recent → y ∈ older → more_recent x y.

(** [sync_errors] lists its entries most recent first. *)
Definition errors_most_recent_first (a b : SyncStatus.SyncError) : Prop :=
  SyncStatus.synced_at b ≤ SyncStatus.synced_at a.

(** The two startup failures told apart as the gateway's contract puts it:
    [initializePools] completes whenever the local database can be reached,
    whatever the remote one does, and does not complete normally when the
    local database cannot be reached. *)
Definition startup_as_described : Prop :=
  ∀ l r now,
    (Db.l_fault l = None →
       (Database.initializePools (Database.boot l r now)).1 = Js.Normal tt) ∧
    (is_Some (Db.l_fault l) →
       (Database.initializePools (Database.boot l r now)).1 ≠ Js.Normal tt).

(** ** Concrete processes *)

Module Sample.

(** The remote table holds Acme under the identifier 7 and a tenant under
    0; a number in a request is read as itself. *)
Definition acme : Db.Tenant :=
  Db.mkTenant 7 (Some "Acme") None None None None None None None
              (Some true) (Some "key-7").

Definition zero : Db.Tenant :=
  Db.mkTenant 0 (Some "Zero") None None None None None None None
              (Some true) None.

Definition as_number (v : Js.Value) : option Z :=
  match v with Js.Num z => Some z | _ => None end.

Definition running (l : Db.LocalDb) (r : Db.RemoteDb) : Db.World :=
  Db.mkWorld (Some Db.new_Pool) (Some Db.new_Pool) l r 1000 [] [].

Definition empty_local : Db.LocalDb := Db.mkLocalDb None ∅ [] [].

Definition remote_up : Db.RemoteDb := Db.mkRemoteDb None [acme; zero].

Definition remote_down : Db.RemoteDb :=
  Db.mkRemoteDb (Some "connect ECONNREFUSED") [acme; zero].

Definition local_down : Db.LocalDb :=
  Db.mkLocalDb (Some "connect ECONNREFUSED") ∅ [] [].

(** Three readings, two of them not yet synchronized. *)
Definition readings : list Db.MeterReading :=
  [ Db.mkReading 1 10 100 "synchronized" true 0;
    Db.mkReading 2 10 200 "failed" false 3;
    Db.mkReading 3 11 300 "pending" false 0 ].

(** Twelve log rows, completed at 100, 200, ..., 1200, stored in no
    particular order.  Rows 1 and 5 succeeded; row 12 is a failed tenant
    sync; row 11, the last upload, failed without a message. *)
Definition log_row (i : Z) (operation : string) (ok : bool)
    (msg : option string) : Db.SyncLog :=
  Db.mkSyncLog i operation 5 ok msg (100 * i).

Definition sync_log : list Db.SyncLog :=
  [ log_row 3 "upload" false (Some "timeout");
    log_row 12 "tenant-sync" false (Some "remote unavailable");
    log_row 1 "upload" true None;
    log_row 7 "upload" false (Some "");
    log_row 5 "upload" true None;
    log_row 2 "upload" false (Some "timeout");
    log_row 11 "upload" false None;
    log_row 4 "upload" false (Some "timeout");
    log_row 6 "upload" false (Some "refused");
    log_row 10 "upload" false (Some "refused");
    log_row 8 "upload" false (Some "refused");
    log_row 9 "upload" false (Some "refused") ].

Definition local_with_history : Db.LocalDb :=
  Db.mkLocalDb None ∅ readings sync_log.

End Sample.

(** ** config/database.ts: health checks; server.ts: the health routes *)

Module Health.
Import Run.

(** What a health check returns: [{ status, timestamp?, error? }]. *)
Record Check : Set := mkCheck {
  status : string;
  timestamp : option Z;
  error : option string;
}.

(** [result.rows[0].now] *)
Definition first_now (r : Db.QueryResult Z) : M Z :=
  match Db.rows r with
  | t :: _ => ret t
  | [] => throw (Js.Error "Cannot read properties of undefined (reading 'now')")
  end.

(** [healthCheckSync] *)
Definition healthCheckSync : M Check :=
  try_catch
    (let! now := read Db.clock in
     let! result := syncPool_query Db.SelectNow
        (λ db, (Js.Normal (select_now now), db)) in
     let! t := first_now result in
     ret {| status := "healthy"; timestamp := Some t; error := None |})
    (λ err, ret {| status := "unhealthy"; timestamp := None;
                   error := Some (Js.message err) |}).

(** [healthCheckRemote] *)
Definition healthCheckRemote : M Check :=
  try_catch
    (let! now := read Db.clock in
     let! result := remotePool_query Db.SelectNow
        (λ db, Js.Normal (select_now now)) in
     let! t := first_now result in
     ret {| status := "healthy"; timestamp := Some t; error := None |})
    (λ err, ret {| status := "unhealthy"; timestamp := None;
                   error := Some (Js.message err) |}).

(** The JSON bodies of the three health routes. *)
Inductive Body : Set :=
  | Alive (status : string) (timestamp : Z)
                                   (* { status, timestamp } *)
  | Up (status database : string) (timestamp : option Z)
                                   (* { status, database, timestamp } *)
  | Down (status database : string) (error : option string).
                                   (* { status, database, error } *)

(** GET /health *)
Definition health_route (w : Db.World) : Http.Response Body * Db.World :=
  (Http.res_json (Alive "ok" (Db.clock w)), w).

(** The handler shared by the two database health routes, for the
    database called [database] and its health check. *)
Definition db_route (database : string) (check : M Check) (w : Db.World)
    : Http.Response Body * Db.World :=
  match check w with
  | (Js.Normal health, w') =>
    if bool_decide (status health = "healthy") then
      (Http.res_json (Up "ok" database (timestamp health)), w')
    else
      (Http.mkResponse 503 (Down "error" database (error health)), w')
  | (Js.Throw err, w') =>
    (Http.mkResponse 503 (Down "error" database (Some (Js.message err))), w')
  end.

(** GET /api/health/sync-db and GET /api/health/remote-db *)
Definition sync_db_route : Db.World → Http.Response Body * Db.World :=
  db_route "sync" healthCheckSync.

Definition remote_db_route : Db.World → Http.Response Body * Db.World :=
  db_route "remote" healthCheckRemote.

End Health.

(** ** server.ts: the routes that only read *)

(** [await syncPool.query(stmt)] for a statement that only reads, given by
    what it returns: the statements of the two routes below are not among
    [Db.Statement], so these routes are given by their response alone. *)
Definition syncPool_read {A} (exec : Db.LocalDb → A) (w : Db.World)
    : Js.Completion A :=
  match Db.syncPool w with
  | None => Js.Throw Js.TypeError_query
  | Some _ =>
    match Db.l_fault (Db.localDb w) with
    | Some msg => Js.Throw (Js.Error msg)
    | None => Js.Normal (exec (Db.localDb w))
    end
  end.

(** GET /api/local/tenant *)
Module LocalTenant.

Inductive Body : Set :=
  | Found (row : TenantSync.TenantData)       (* the row itself *)
  | NotFound (error status : string)          (* { error, status } *)
  | Failed (error : string).                  (* { error } *)

(** [SELECT tenant_id, name, ..., active FROM tenant LIMIT 1]: one row of
    the table, without its [api_key]; which one, when there are several,
    is the database's choice (here the first in the order of the map). *)
Definition select_tenant_limit_1 (db : Db.LocalDb)
    : Db.QueryResult TenantSync.TenantData :=
  Db.selected
    (take 1 (TenantSync.data_of <$> (map_to_list (Db.l_tenant db)).*2)).

Definition response (w : Db.World) : Http.Response Body :=
  match syncPool_read select_tenant_limit_1 w with
  | Js.Normal result =>
    match Db.rows result with
    | [] => Http.mkResponse 404 (NotFound "No tenant found" "not_found")
    | row :: _ => Http.res_json (Found row)
    end
  | Js.Throw error => Http.mkResponse 500 (Failed (Js.message error))
  end.

End LocalTenant.

(** GET /api/sync/meter-reading-upload/log *)
Module UploadLog.

(** A row as the statement names its columns. *)
Record Entry : Set := mkEntry {
  sync_operation_id : Z;
  operation_type : string;
  readings_count : Z;
  success : bool;
  error_message : option string;
  created_at : Z;
}.

Definition as_entry (log : Db.SyncLog) : Entry :=
  {| sync_operation_id := Db.id log;
     operation_type := Db.operation_type log;
     readings_count := Db.batch_size log;
     success := Db.success log;
     error_message := Db.error_message log;
     created_at := Db.synced_at log |}.

(** [SELECT id as sync_operation_id, ... FROM sync_log WHERE operation_type
    = 'upload' ORDER BY synced_at DESC LIMIT 20].  Rows completed at the
    same time are returned in an order of the database's choosing; the
    sort below fixes one, and what is proved of the route holds for any. *)
Definition upload_log (db : Db.LocalDb) : Db.QueryResult Entry :=
  Db.selected
    (as_entry <$>
       take 20 (merge_sort more_recent
                  (filter (λ l, Db.operation_type l = "upload")
                          (Db.l_sync_log db)))).

Inductive Body : Set :=
  | Entries (rows : list Entry)
  | Failed (error : string).                  (* { error } *)

Definition response (w : Db.World) : Http.Response Body :=
  match syncPool_read upload_log w with
  | Js.Normal result => Http.res_json (Entries (Db.rows result))
  | Js.Throw error => Http.mkResponse 500 (Failed (Js.message error))
  end.

(** The log lists its entries most recent first. *)
Definition entries_most_recent_first (a b : Entry) : Prop :=
  created_at b ≤ created_at a.

End UploadLog.

(** GET /api/local/readings?hours=N *)
Module Readings.

(** A row as the statement names its columns; times are in milliseconds,
    like the clock. *)
Record Row : Set := mkRow {
  meter_reading_id : Z;
  meter_id : Z;
  timestamp : Z;
  sync_status : string;
  is_synchronized : bool;
  retry_count : Z;
}.

Definition as_row (r : Db.MeterReading) : Row :=
  {| meter_reading_id := Db.meter_reading_id r;
     meter_id := Db.meter_id r;
     timestamp := Db.created_at r;
     sync_status := Db.sync_status r;
     is_synchronized := Db.is_synchronized r;
     retry_count := Db.retry_count r |}.

(** [parseInt(req.query.hours as string) || 24], from what [parseInt]
    makes of the parameter: [None] is [NaN], which a missing parameter
    gives as well; [NaN] and 0 are falsy.  (A digit string so long that
    [parseInt] gives [Infinity] is left aside.) *)
Definition hours_of (parsed : option Z) : Z :=
  match parsed with
  | Some h => if bool_decide (h = 0) then 24 else h
  | None => 24
  end.

Definition ms_per_hour : Z := 3600000.

(** The ordering of [ORDER BY created_at DESC]. *)
Definition newer (a b : Db.MeterReading) : Prop :=
  Db.created_at b ≤ Db.created_at a.

Global Instance newer_dec a b : Decision (newer a b).
Proof. unfold newer. apply _. Defined.

Inductive Body : Set :=
  | Rows (rows : list Row)
  | Failed (error : string).                  (* { error } *)

(** The rows are listed newest first. *)
Definition newest_first (a b : Row) : Prop := timestamp b ≤ timestamp a.

Section route.

(** The number of hours is written into the statement's text, and the
    server has to evaluate [NOW() - INTERVAL '<hours> hours'] before it
    looks at any row.  It refuses when the interval or the resulting time
    is outside what its types hold (at 60000000 hours: "timestamp out of
    range"), and the query then rejects.  [out_of_range now hours] is the
    message it refuses with, [None] when it evaluates the expression. *)
Variable out_of_range : Z → Z → option string.

(** [... FROM meter_reading WHERE created_at >= NOW() - INTERVAL '<hours>
    hours' ORDER BY created_at DESC LIMIT 1000].  Rows created at the same
    time are returned in an order of the database's choosing; the sort
    below fixes one. *)
Definition recent_readings (now hours : Z) (db : Db.LocalDb)
    : Js.Completion (Db.QueryResult Row) :=
  match out_of_range now hours with
  | Some msg => Js.Throw (Js.Error msg)
  | None =>
    Js.Normal (Db.selected
      (as_row <$>
         take 1000
           (merge_sort newer
              (filter (λ r, now - hours * ms_per_hour ≤ Db.created_at r)
                      (Db.l_meter_reading db)))))
  end.

(** [await syncPool.query(query)]: without a pool or a database that
    answers the statement never reaches the server. *)
Definition query (now hours : Z) (w : Db.World)
    : Js.Completion (Db.QueryResult Row) :=
  match syncPool_read (recent_readings now hours) w with
  | Js.Normal answer => answer
  | Js.Throw error => Js.Throw error
  end.

Definition response (parsed : option Z) (w : Db.World) : Http.Response Body :=
  let hours := hours_of parsed in
  match query (Db.clock w) hours w with
  | Js.Normal result => Http.res_json (Rows (Db.rows result))
  | Js.Throw error => Http.mkResponse 500 (Failed (Js.message error))
  end.

End route.

End Readings.

(** A server that refuses the window of the readings route exactly when
    its start is not a timestamp: PostgreSQL's timestamps run from 4713 BC
    to the end of 294276 AD, here in milliseconds since 1970. *)
Module Timestamp.

Definition first : Z := -210866803200000.
Definition beyond : Z := 9224318016000000.

Definition out_of_range (now hours : Z) : option string :=
  if bool_decide (first ≤ now - hours * Readings.ms_per_hour < beyond)
  then None else Some "timestamp out of range".

End Timestamp.

(** ** server.ts: the routes as one server *)

Module App.

(** The requests to the routes that change the process or are probed by
    the monitor. *)
Inductive Request : Set :=
  | GetHealth                                 (* GET /health *)
  | GetHealthSyncDb                           (* GET /api/health/sync-db *)
  | GetHealthRemoteDb                         (* GET /api/health/remote-db *)
  | PostTenantSync (tenant_id : Js.Value)     (* POST /api/local/tenant-sync *)
  | GetSyncStatus                             (* GET /api/local/sync-status *)
  | GetUploadStatus.                          (* GET /api/sync/meter-reading-upload/status *)

Section serve.
Variable tenant_key : Js.Value → option Z.

(** The status code a request is answered with, and the process after. *)
Definition serve (req : Request) (w : Db.World) : Z * Db.World :=
  match req with
  | GetHealth =>
    let '(r, w') := Health.health_route w in (Http.status r, w')
  | GetHealthSyncDb =>
    let '(r, w') := Health.sync_db_route w in (Http.status r, w')
  | GetHealthRemoteDb =>
    let '(r, w') := Health.remote_db_route w in (Http.status r, w')
  | PostTenantSync tenant_id =>
    let '(r, w') := TenantSync.handler tenant_key tenant_id w in
    (Http.status r, w')
  | GetSyncStatus =>
    let '(r, w') := SyncStatus.handler w in (Http.status r, w')
  | GetUploadStatus =>
    let '(r, w') := UploadStatus.handler w in (Http.status r, w')
  end.

(** The process after a sequence of requests, served one after another. *)
Definition serve_all (reqs : list Request) (w : Db.World) : Db.World :=
  foldl (λ w req, (serve req w).2) w reqs.

End serve.

End App.

(** ** The monitor in front of the server *)

Module Probe.
Import Monitor.

(** The route that answers each endpoint the monitor probes. *)
Definition answer (e : Endpoint) (w : Db.World) : Z * Db.World :=
  match e with
  | health_sync_db =>
    let '(r, w') := Health.sync_db_route w in (Http.status r, w')
  | health_remote_db =>
    let '(r, w') := Health.remote_db_route w in (Http.status r, w')
  | local_sync_status =>
    let '(r, w') := SyncStatus.handler w in (Http.status r, w')
  end.

(** One pass of the monitor against the server: the three requests are
    served in the order in which the pass sends them, and the answer to
    the request for [e] reaches the monitor after [latency e]
    milliseconds. *)
Definition pass (latency : Endpoint → Z) (w : Db.World)
    (prev : ConnectionStatusState) : ConnectionStatusState * Db.World :=
  let '(s1, w1) := answer health_sync_db w in
  let '(s2, w2) := answer health_remote_db w1 in
  let '(s3, w3) := answer local_sync_status w2 in
  (checkAllConnections
     (λ e, Responds (latency e)
             match e with
             | health_sync_db => s1
             | health_remote_db => s2
             | local_sync_status => s3
             end)
     prev,
   w3).

End Probe.

(** ** components/ConnectionStatusIndicator.tsx *)

Module Indicator.
Import Monitor.

(** The line feed of the template literals. *)
Definition LF : string := String (Ascii.ascii_of_nat 10) "".

Section props.
(** The component's props; [tooltip] is optional. *)
Variables (label : string) (state : ConnectionState) (tooltip : option string).

Definition getStatusColor : string :=
  match state with
  | CONNECTED => "#4caf50"
  | DISCONNECTED | ERROR => "#f44336"
  | CHECKING => "#cccccc"
  end.

Definition getStatusText : string :=
  match state with
  | CONNECTED => label +:+ LF +:+ "Connected"
  | DISCONNECTED => label +:+ LF +:+ "Disconnected"
  | ERROR => label +:+ LF +:+ "Error"
  | CHECKING => "Checking..."
  end.

(** [if (tooltip) return tooltip;] then the [switch]: a tooltip that is
    missing or empty is falsy. *)
Definition getTooltipText : string :=
  Js.or_string tooltip
    match state with
    | CONNECTED => label +:+ " is connected and operational"
    | DISCONNECTED => label +:+ " is disconnected"
    | ERROR => label +:+ " connection error"
    | CHECKING => "Checking connection status..."
    end.

End props.

End Indicator.

(** ** What a request may change *)

Module Frame.

(** The process after more statements were sent, and nothing else. *)
Definition sent_all (more : list Db.Access) (w : Db.World) : Db.World :=
  {| Db.syncPool := Db.syncPool w; Db.remotePool := Db.remotePool w;
     Db.localDb := Db.localDb w; Db.remoteDb := Db.remoteDb w;
     Db.clock := Db.clock w; Db.trace := (Db.trace w ++ more)%list;
     Db.console := Db.console w |}.

(** A statement that only reads. *)
Definition is_select (a : Db.Access) : Prop :=
  match a.2 with
  | Db.UpsertTenant _ => False
  | _ => True
  end.

(** What the server keeps from [w] to [w']: the pool variables, the
    remote database, the clock and the console, and in the local database
    the readings, the sync log and every tenant identifier; the statements
    sent so far stay in the trace. *)
Definition kept (w w' : Db.World) : Prop :=
  Db.syncPool w' = Db.syncPool w ∧
  Db.remotePool w' = Db.remotePool w ∧
  Db.remoteDb w' = Db.remoteDb w ∧
  Db.clock w' = Db.clock w ∧
  Db.console w' = Db.console w ∧
  Db.l_fault (Db.localDb w') = Db.l_fault (Db.localDb w) ∧
  Db.l_meter_reading (Db.localDb w') = Db.l_meter_reading (Db.localDb w) ∧
  Db.l_sync_log (Db.localDb w') = Db.l_sync_log (Db.localDb w) ∧
  dom (Db.l_tenant (Db.localDb w)) ⊆ dom (Db.l_tenant (Db.localDb w')) ∧
  Db.trace w `prefix_of` Db.trace w'.

(** The statements each status route sends. *)
Definition status_statements (second : Db.Statement) (w : Db.World)
    : list Db.Access :=
  match Db.syncPool w with
  | None => []
  | Some _ =>
    match Db.l_fault (Db.localDb w) with
    | Some _ => [(Db.Local, Db.CountUnsynchronized)]
    | None =>
      [(Db.Local, Db.CountUnsynchronized); (Db.Local, second)] ++
      (if Db.remotePool w is Some _ then [(Db.Remote, Db.SelectOne)] else [])
    end
  end.

(** The statements a tenant sync sends: none for a falsy identifier or
    an unset remote pool; otherwise the remote lookup, followed by the
    upsert of the first row found when the lookup finds one and the local
    pool is set. *)
Definition sync_statements (tenant_key : Js.Value → option Z)
    (tenant_id : Js.Value) (w : Db.World) : list Db.Access :=
  if negb (Js.truthy tenant_id) then []
  else
    match Db.remotePool w with
    | None => []
    | Some _ =>
      (Db.Remote, Db.SelectTenantById tenant_id) ::
      match TenantSync.remote_lookup tenant_key tenant_id w with
      | Js.Normal (remote :: _) =>
        if Db.syncPool w is Some _
        then [(Db.Local, Db.UpsertTenant remote)] else []
      | _ => []
      end
    end.

End Frame.

(** A remote table with two tenants whose identifiers are truthy. *)
Module TwoTenants.

Definition globex : Db.Tenant :=
  Db.mkTenant 8 (Some "Globex") (Some "https://globex.example") None None
              None None None None (Some false) (Some "key-8").

Definition remote : Db.RemoteDb := Db.mkRemoteDb None [Sample.acme; globex].

End TwoTenants.

(** A local database whose last upload failed with a message: three
    uploads completed at 100, 200 and 300, and a later tenant sync. *)
Module FailedUpload.

Definition sync_log : list Db.SyncLog :=
  [ Sample.log_row 2 "upload" false (Some "");
    Sample.log_row 4 "tenant-sync" true None;
    Sample.log_row 3 "upload" false (Some "remote API timeout");
    Sample.log_row 1 "upload" true None ].

Definition local : Db.LocalDb :=
  Db.mkLocalDb None ∅ Sample.readings sync_log.

End FailedUpload.

(** A driver and server that read a request value as a tenant identifier
    the way an integer column does: a number as itself, a text of decimal
    digits (with an optional minus sign) as the integer it spells, and
    nothing else. *)
Module Driver.

Definition digit (c : Ascii.ascii) : option Z :=
  let n := Z.of_nat (Ascii.nat_of_ascii c) in
  if bool_decide (48 ≤ n ≤ 57) then Some (n - 48) else None.

Fixpoint digits (s : string) (acc : Z) : option Z :=
  match s with
  | EmptyString => Some acc
  | String c rest =>
    match digit c with
    | Some d => digits rest (10 * acc + d)
    | None => None
    end
  end.

Definition integer_text (s : string) : option Z :=
  match s with
  | EmptyString => None
  | String c rest =>
    if bool_decide (c = Ascii.ascii_of_nat 45) then
      match rest with
      | EmptyString => None
      | _ => Z.opp <$> digits rest 0
      end
    else digits s 0
  end.

Definition as_integer (v : Js.Value) : option Z :=
  match v with
  | Js.Num z => Some z
  | Js.Str s => integer_text s
  | _ => None
  end.

End Driver.

(** * Properties *)

(** ** Lists *)

Section list_facts.
Context {A : Type} (P : A → Prop) `{!∀ x, Decision (P x)}.

Lemma filter_none (l : list A) : (∀ x, x ∈ l → ¬ P x) → filter P l = [].
Proof.
  induction l as [|x l IH]; intros Hl; [done|].
  rewrite filter_cons_False by (apply Hl; left).
  apply IH. intros y Hy. apply Hl. by right.
Qed.

End list_facts.

(** ** Stores that answer *)

Module RunSpec.
Import Run.

Lemma local_answers_spec w :
  local_answers w = true ↔
  is_Some (Db.syncPool w) ∧ Db.l_fault (Db.localDb w) = None.
Proof.
  unfold local_answers. by rewrite andb_true_iff, !bool_decide_eq_true.
Qed.

(** The probe answers whether the remote database answers. *)
Lemma remote_probe_eq w : (remote_probe w).1 = Js.Normal (remote_answers w).
Proof.
  unfold remote_probe, try_catch, bind, remotePool_query, ret, remote_answers.
  destruct w as [sp [p|] l [[msg|] rt] clk tr con]; done.
Qed.

Lemma remote_probe_keeps_local w :
  Db.localDb (remote_probe w).2 = Db.localDb w.
Proof.
  unfold remote_probe, try_catch, bind, remotePool_query, ret.
  destruct w as [sp [p|] l [[msg|] rt] clk tr con]; done.
Qed.

End RunSpec.

(** ** The connectivity monitor *)

Module MonitorSpec.
Import Monitor.

Lemma ok_spec st : ok st = true ↔ 200 ≤ st ≤ 299.
Proof.
  unfold ok. rewrite andb_true_iff, !bool_decide_eq_true. lia.
Qed.

(** A probe reports [true] exactly for a 2xx answer that beats the timer. *)
Lemma checkConnection_true net timeout :
  checkConnection net timeout = true ↔ answered_2xx_in_time net timeout.
Proof.
  unfold checkConnection, checkConnection_timed, fetch, answered_2xx_in_time.
  split.
  - destruct net as [t st | t | ]; simpl; [| by case_bool_decide | done].
    case_bool_decide; simpl; [|done].
    intros Hok%ok_spec. eauto.
  - intros (t & st & -> & Ht & Hst).
    rewrite bool_decide_eq_true_2 by done. simpl. by apply ok_spec.
Qed.

(** A probe settles, and no later than its timer. *)
Lemma checkConnection_settles net timeout :
  ∃ b t, checkConnection_timed net timeout = (b, t) ∧ t ≤ timeout.
Proof.
  unfold checkConnection_timed, fetch.
  destruct net as [t st | t | ]; simpl; repeat case_bool_decide; simpl;
    eexists _, _; (split; [reflexivity | lia]).
Qed.

(** One pass writes, for each endpoint, the state of its own probe. *)
Lemma checkAllConnections_endpoint net prev e :
  endpoint_state e (checkAllConnections net prev)
  = state_of (checkConnection (net e) CHECK_TIMEOUT).
Proof. by destruct e. Qed.

Lemma state_of_connected b : state_of b = CONNECTED ↔ b = true.
Proof. destruct b; simpl; split; congruence. Qed.

Lemma state_of_disconnected b : state_of b = DISCONNECTED ↔ b = false.
Proof. destruct b; simpl; split; congruence. Qed.

(** Across the hook's life no endpoint is ever in the [ERROR] state, and
    after the first pass none is [CHECKING] either. *)
Lemma run_monitor_states passes e :
  endpoint_state e (run_monitor passes) ≠ ERROR ∧
  (passes ≠ [] → endpoint_state e (run_monitor passes) ≠ CHECKING).
Proof.
  unfold run_monitor.
  induction passes as [|net passes IH] using rev_ind.
  - split; [by destruct e | done].
  - rewrite foldl_app. simpl. rewrite checkAllConnections_endpoint.
    split; intros; by destruct (checkConnection _ _).
Qed.

(** C6. After a pass of the monitor, whatever the state before it and
    whatever the network did with the three requests, every endpoint is
    either connected or disconnected: connected exactly when its request was
    answered with a 2xx status before the 5000 ms timer fired, disconnected
    in every other case (late or never answered, network failure, another
    status).  The error state is not reached, by this pass or by any run of
    the monitor, and every probe settles no later than its timer. *)
Theorem pass_settles_every_endpoint
    (net : Endpoint → Network) (prev : ConnectionStatusState) (e : Endpoint) :
  let s := endpoint_state e (checkAllConnections net prev) in
  (s = CONNECTED ∨ s = DISCONNECTED) ∧
  (s = CONNECTED ↔ answered_2xx_in_time (net e) 5000) ∧
  (s = DISCONNECTED ↔ ¬ answered_2xx_in_time (net e) 5000) ∧
  s ≠ ERROR ∧
  (∀ passes, endpoint_state e (run_monitor passes) ≠ ERROR) ∧
  (∃ b t, checkConnection_timed (net e) CHECK_TIMEOUT = (b, t) ∧ t ≤ 5000).
Proof.
  simpl. rewrite checkAllConnections_endpoint.
  rewrite state_of_connected, state_of_disconnected.
  change CHECK_TIMEOUT with 5000.
  rewrite <- (checkConnection_true (net e) 5000).
  split_and!.
  - destruct (checkConnection _ _); auto.
  - done.
  - split; [by intros -> | apply not_true_is_false].
  - by destruct (checkConnection _ _).
  - intros passes. apply run_monitor_states.
  - apply checkConnection_settles.
Qed.

(** C7. [isAllConnected] holds exactly when the three endpoint states are
    connected; [isRemoteSystemConnected] holds exactly when the remote
    database and the remote API are, whatever the state of the local
    database; with the local database disconnected and both remote probes
    connected the first flag is false and the second true. *)
Theorem aggregate_flags (status : ConnectionStatusState) :
  (isAllConnected status = true ↔
     syncDb status = CONNECTED ∧ remoteDb status = CONNECTED ∧
     remoteApi status = CONNECTED) ∧
  (isRemoteSystemConnected status = true ↔
     remoteDb status = CONNECTED ∧ remoteApi status = CONNECTED) ∧
  (∀ local, isRemoteSystemConnected (set_syncDb local status)
            = isRemoteSystemConnected status) ∧
  isRemoteSystemConnected (mkStatus DISCONNECTED CONNECTED CONNECTED) = true ∧
  isAllConnected (mkStatus DISCONNECTED CONNECTED CONNECTED) = false.
Proof.
  unfold isAllConnected, isRemoteSystemConnected.
  rewrite !andb_true_iff, !bool_decide_eq_true.
  repeat split; tauto.
Qed.

End MonitorSpec.

(** ** POST /api/local/tenant-sync *)

Module TenantSyncSpec.
Import Run RunSpec TenantSync Sample.

Section facts.
Variable tenant_key : Js.Value → option Z.

Local Abbreviation handler := (TenantSync.handler tenant_key).
Local Abbreviation remote_lookup := (TenantSync.remote_lookup tenant_key).

(** The handler, case by case. *)
Lemma handler_eq tenant_id w :
  handler tenant_id w =
  if negb (Js.truthy tenant_id) then
    (Http.mkResponse 400 (Failed "tenant_id is required"), w)
  else
    match Db.remotePool w with
    | None =>
      (Http.mkResponse 503 (Failed "Remote database pool not available"), w)
    | Some _ =>
      let w1 := sent (Db.Remote, Db.SelectTenantById tenant_id) w in
      match remote_lookup tenant_id w with
      | Js.Throw e =>
        (Http.mkResponse 500 (FailedAt (Js.message e) (Db.clock w)), w1)
      | Js.Normal [] =>
        (Http.mkResponse 404
           (Failed ("Tenant " +:+ Js.to_string tenant_id +:+
                    " not found in remote database")), w1)
      | Js.Normal (remoteTenant :: _) =>
        match Db.syncPool w with
        | None =>
          (Http.mkResponse 500
             (FailedAt (Js.message Js.TypeError_query) (Db.clock w)), w1)
        | Some _ =>
          let w2 := sent (Db.Local, Db.UpsertTenant remoteTenant) w1 in
          match Db.l_fault (Db.localDb w) with
          | Some msg => (Http.mkResponse 500 (FailedAt msg (Db.clock w)), w2)
          | None =>
            (Http.res_json
               (Synced "Tenant sync completed successfully"
                  {| inserted := 1; updated := 0; timestamp := Db.clock w |}
                  (data_of (upserted_row remoteTenant
                              (Db.l_tenant (Db.localDb w))))),
             set_localDb (upserted remoteTenant (Db.localDb w)) w2)
          end
        end
      end
    end.
Proof.
  unfold TenantSync.handler, route, TenantSync.remote_lookup.
  destruct (Js.truthy tenant_id); simpl; [|done].
  unfold bind, read, remotePool_query, syncPool_query.
  destruct w as [sp rp l [rf rt] clk tr con]; simpl.
  destruct rp as [p|]; simpl; [|done].
  destruct rf as [msg|]; simpl; [done|].
  destruct (select_tenant_by_id _ _ _) as [[rs n]|e]; simpl; [|done].
  destruct rs as [|remoteTenant rs]; simpl; [done|].
  destruct sp as [q|]; simpl; [|done].
  destruct (Db.l_fault l) as [msg|]; simpl; done.
Qed.

(** The only way to a 200. *)
Lemma handler_200 tenant_id w r w' :
  handler tenant_id w = (r, w') → Http.status r = 200 →
  ∃ remoteTenant rest,
    Js.truthy tenant_id = true ∧ is_Some (Db.remotePool w) ∧
    remote_lookup tenant_id w = Js.Normal (remoteTenant :: rest) ∧
    local_answers w = true ∧
    r = Http.res_json
          (Synced "Tenant sync completed successfully"
             {| inserted := 1; updated := 0; timestamp := Db.clock w |}
             (data_of (upserted_row remoteTenant (Db.l_tenant (Db.localDb w))))) ∧
    w' = set_localDb (upserted remoteTenant (Db.localDb w))
           (sent (Db.Local, Db.UpsertTenant remoteTenant)
              (sent (Db.Remote, Db.SelectTenantById tenant_id) w)).
Proof.
  rewrite handler_eq.
  destruct (Js.truthy tenant_id); simpl; [|by intros [= <- <-]].
  destruct (Db.remotePool w) as [p|]; [|by intros [= <- <-]].
  destruct (remote_lookup tenant_id w) as [[|remoteTenant rest]|e];
    [by intros [= <- <-]| |by intros [= <- <-]].
  destruct (Db.syncPool w) as [q|] eqn:Hq; [|by intros [= <- <-]].
  destruct (Db.l_fault (Db.localDb w)) as [msg|] eqn:Hf; [by intros [= <- <-]|].
  intros [= <- <-] _. eexists _, _. split_and!; try done.
  apply local_answers_spec. by rewrite Hq.
Qed.

(** Every 200 of the route reports one insertion and no update. *)
Lemma success_reports_inserted tenant_id w r w' :
  handler tenant_id w = (r, w') → Http.status r = 200 →
  ∃ message now data,
    Http.json r = Synced message
                    {| inserted := 1; updated := 0; timestamp := now |} data.
Proof.
  intros H1 H2.
  destruct (handler_200 _ _ _ _ H1 H2) as (t & rest & _ & _ & _ & _ & -> & _).
  by eexists _, _, _.
Qed.

(** A response other than 200 leaves the local database as it was. *)
Lemma failure_keeps_local tenant_id w r w' :
  handler tenant_id w = (r, w') → Http.status r ≠ 200 →
  Db.localDb w' = Db.localDb w.
Proof.
  rewrite handler_eq.
  destruct (Js.truthy tenant_id); simpl; [|by intros [= <- <-]].
  destruct (Db.remotePool w) as [p|]; [|by intros [= <- <-]].
  destruct (remote_lookup tenant_id w) as [[|remoteTenant rest]|e];
    [by intros [= <- <-]| |by intros [= <- <-]].
  destruct (Db.syncPool w) as [q|]; [|by intros [= <- <-]].
  destruct (Db.l_fault (Db.localDb w)) as [msg|]; by intros [= <- <-].
Qed.

(** The upsert, run again with the same proposed row, finds the row it
    left and writes it again. *)
Lemma conflict_update_self t : conflict_update t t = t.
Proof. by destruct t. Qed.

Lemma upserted_row_again t (table : gmap Z Db.Tenant) :
  upserted_row t (<[Db.tenant_id t := upserted_row t table]> table)
  = upserted_row t table.
Proof.
  unfold upserted_row at 1. rewrite lookup_insert_eq.
  unfold upserted_row. destruct (table !! Db.tenant_id t) as [old|].
  - done.
  - apply conflict_update_self.
Qed.

Lemma upserted_again t db : upserted t (upserted t db) = upserted t db.
Proof.
  unfold upserted. simpl. f_equal.
  by rewrite upserted_row_again, insert_insert_eq.
Qed.

Lemma upserted_row_mirrors t (table : gmap Z Db.Tenant) :
  same_mirrored_fields (upserted_row t table) t.
Proof.
  unfold upserted_row, same_mirrored_fields.
  by destruct (table !! Db.tenant_id t).
Qed.

Lemma upserted_lookup t db :
  Db.l_tenant (upserted t db) !! Db.tenant_id t
  = Some (upserted_row t (Db.l_tenant db)).
Proof. apply lookup_insert_eq. Qed.

(** C5. Two successive syncs of a tenant whose remote record is the same
    leave the same local row: if the first call answers 200, the call that
    follows it (only time has passed) answers 200 as well, the local tenant
    table after it is the table after the first call, both responses carry
    the same tenant_data, and the local row agrees with the remote record
    on every mirrored column (name, url, street, street2, city, state, zip,
    country, active, api_key), whatever the local row was before. *)
Theorem tenant_sync_idempotent tenant_id w r1 w1 later :
  handler tenant_id w = (r1, w1) → Http.status r1 = 200 →
  ∃ remote rest row r2 w2,
    remote_lookup tenant_id w = Js.Normal (remote :: rest) ∧
    handler tenant_id (at_time later w1) = (r2, w2) ∧
    Http.status r2 = 200 ∧
    Db.l_tenant (Db.localDb w2) = Db.l_tenant (Db.localDb w1) ∧
    Db.l_tenant (Db.localDb w1) !! Db.tenant_id remote = Some row ∧
    Db.l_tenant (Db.localDb w2) !! Db.tenant_id remote = Some row ∧
    same_mirrored_fields row remote ∧
    ∃ m1 s1 m2 s2 data,
      Http.json r1 = Synced m1 s1 data ∧ Http.json r2 = Synced m2 s2 data.
Proof.
  intros H1 H200.
  destruct (handler_200 _ _ _ _ H1 H200)
    as (remote & rest & Htruthy & [p Hp] & Hlookup & Hlocal & -> & ->).
  apply local_answers_spec in Hlocal as [[q Hq] Hfault].
  exists remote, rest, (upserted_row remote (Db.l_tenant (Db.localDb w))).
  eexists _, _.
  split; [done|]. split.
  { rewrite handler_eq, Htruthy. simpl. rewrite Hp.
    unfold TenantSync.remote_lookup in *. simpl.
    destruct (Db.r_fault (Db.remoteDb w)); [done|].
    destruct (select_tenant_by_id _ _ _) as [res|]; [|done].
    injection Hlookup as ->. rewrite Hq, Hfault. reflexivity. }
  simpl. rewrite !upserted_row_again, insert_insert_eq.
  split_and!; try done.
  - apply lookup_insert_eq.
  - apply lookup_insert_eq.
  - apply upserted_row_mirrors.
  - by eexists _, _, _, _, _.
Qed.

(** C10, amended. A request whose tenant_id is falsy is answered 400 with
    the error "tenant_id is required", and nothing else happens: no
    statement is sent and the process is as before.  The number 0, the
    empty string, null and false are falsy although the field is present,
    so a request that carries the number 0 never reconciles a tenant,
    whatever the two databases hold.  Tenant 0 itself is not out of reach:
    a truthy value that the database reads as 0 passes the check, and when
    the remote table holds tenant 0 and both databases answer, the route
    answers 200 and the local table then holds a row for 0 that mirrors
    the remote one. *)
Theorem falsy_tenant_id_rejected tenant_id w :
  Js.truthy tenant_id = false →
  handler tenant_id w
    = (Http.mkResponse 400 (Failed "tenant_id is required"), w) ∧
  Forall (λ v, Js.truthy v = false)
         [Js.Num 0; Js.Str ""; Js.Null; Js.Bool false; Js.Undefined] ∧
  (∀ w0, Http.status (handler (Js.Num 0) w0).1 = 400 ∧
         Db.localDb (handler (Js.Num 0) w0).2 = Db.localDb w0) ∧
  (∀ v w0 remote,
     Js.truthy v = true → tenant_key v = Some 0 →
     is_Some (Db.remotePool w0) → Db.r_fault (Db.remoteDb w0) = None →
     local_answers w0 = true →
     remote ∈ Db.r_tenant (Db.remoteDb w0) → Db.tenant_id remote = 0 →
     Http.status (handler v w0).1 = 200 ∧
     ∃ t row,
       t ∈ Db.r_tenant (Db.remoteDb w0) ∧ Db.tenant_id t = 0 ∧
       Db.l_tenant (Db.localDb (handler v w0).2) !! 0 = Some row ∧
       same_mirrored_fields row t).
Proof.
  intros Hfalsy. split_and!.
  - by rewrite handler_eq, Hfalsy.
  - by repeat constructor.
  - intros w0. by rewrite handler_eq.
  - intros v w0 remote Htruthy Hkey [p Hp] Hup Hlocal Hin Hid.
    apply local_answers_spec in Hlocal as [[q Hq] Hfault].
    rewrite handler_eq, Htruthy. simpl. rewrite Hp.
    unfold TenantSync.remote_lookup, select_tenant_by_id.
    rewrite Hup, Hkey. simpl.
    destruct (filter _ _) as [|t rest] eqn:Hfound.
    { exfalso.
      assert (Hremote : remote ∈ filter (λ t, Db.tenant_id t = 0)
                                        (Db.r_tenant (Db.remoteDb w0)))
        by (by apply list_elem_of_filter).
      rewrite Hfound in Hremote. by apply elem_of_nil in Hremote. }
    assert (Ht : t ∈ filter (λ t, Db.tenant_id t = 0)
                            (Db.r_tenant (Db.remoteDb w0)))
      by (rewrite Hfound; apply elem_of_cons; by left).
    apply list_elem_of_filter in Ht as [Ht0 Ht].
    rewrite Hq, Hfault. simpl. split; [done|].
    exists t, (upserted_row t (Db.l_tenant (Db.localDb w0))).
    split_and!; try done.
    + rewrite <- Ht0 at 1. apply lookup_insert_eq.
    + apply upserted_row_mirrors.
Qed.


(** C3, amended. The answer of the route, case by case: 400 with
    "tenant_id is required" when the request's tenant_id is missing or
    falsy in any other way, before anything is sent to either store (the
    process is unchanged); otherwise 503 when the remote pool variable is
    unset; otherwise 500 when the remote lookup throws; otherwise 404 when
    the lookup finds no row; otherwise 500 when the local database does not
    answer the upsert; and otherwise 200 with success, sync_result and
    tenant_data. *)
Theorem tenant_sync_answer tenant_id w :
  let r := (handler tenant_id w).1 in
  let w' := (handler tenant_id w).2 in
  if negb (Js.truthy tenant_id) then
    r = Http.mkResponse 400 (Failed "tenant_id is required") ∧
    w' = w ∧ Db.trace w' = Db.trace w
  else
    match Db.remotePool w with
    | None =>
      r = Http.mkResponse 503 (Failed "Remote database pool not available")
    | Some _ =>
      match remote_lookup tenant_id w with
      | Js.Throw e =>
        r = Http.mkResponse 500 (FailedAt (Js.message e) (Db.clock w))
      | Js.Normal [] =>
        r = Http.mkResponse 404
              (Failed ("Tenant " +:+ Js.to_string tenant_id +:+
                       " not found in remote database"))
      | Js.Normal (_ :: _) =>
        if local_answers w then
          Http.status r = 200 ∧
          ∃ message result data,
            Http.json r = Synced message result data ∧
            success (Http.json r) = true
        else
          Http.status r = 500 ∧ success (Http.json r) = false
      end
    end.
Proof.
  simpl. rewrite handler_eq. unfold local_answers.
  destruct (Js.truthy tenant_id); simpl; [|done].
  destruct (Db.remotePool w) as [p|]; [|done].
  destruct (remote_lookup tenant_id w) as [[|remoteTenant rest]|e];
    [done| |done].
  destruct (Db.syncPool w) as [q|]; simpl; [|done].
  destruct (Db.l_fault (Db.localDb w)) as [msg|]; simpl; [done|].
  split; [done|]. by eexists _, _, _.
Qed.

End facts.

(** C1, at the input where it fails. Acme (7) is in the remote table and
    not in the local one.  The first sync answers 200 and reports
    inserted = 1, updated = 0.  The local table then holds a row for 7, and
    the repeated sync answers 200 with the same tenant_data but again
    reports inserted = 1 and updated = 0: the row count the handler tests is
    1 whether the statement inserted the row or updated it. *)
Theorem repeated_sync_reports_inserted :
  let w := running empty_local remote_up in
  let first := TenantSync.handler as_number (Js.Num 7) w in
  let second := TenantSync.handler as_number (Js.Num 7) first.2 in
  Db.l_tenant (Db.localDb w) !! 7 = None ∧
  first.1 = Http.mkResponse 200
    (Synced "Tenant sync completed successfully"
       {| inserted := 1; updated := 0; timestamp := 1000 |} (data_of acme)) ∧
  Db.l_tenant (Db.localDb first.2) !! 7 = Some acme ∧
  second.1 = Http.mkResponse 200
    (Synced "Tenant sync completed successfully"
       {| inserted := 1; updated := 0; timestamp := 1000 |} (data_of acme)).
Proof. by vm_compute. Qed.

(** C3 as it is written fails.  With tenant_id 7 in the body, the remote
    pool assigned and Acme in the remote table, the four cases give 200;
    the remote database cannot be reached, the lookup rejects and the
    handler answers 500 (which is not 503 either, should an unreachable
    database count as an unavailable pool).  With tenant_id 0 in the body
    and tenant 0 in the remote table the four cases give 200 as well, and
    the handler answers 400. *)
Lemma status_as_described_fails :
  status_as_described as_number (Js.Num 7) (running empty_local remote_down) = 200 ∧
  Http.status
    (TenantSync.handler as_number (Js.Num 7) (running empty_local remote_down)).1
    = 500 ∧
  status_as_described as_number (Js.Num 0) (running empty_local remote_up) = 200 ∧
  Http.status
    (TenantSync.handler as_number (Js.Num 0) (running empty_local remote_up)).1
    = 400.
Proof. by vm_compute. Qed.

(** C10 as it is written fails.  The text "0" is truthy, and a database
    that reads a text of digits as the integer it spells looks up tenant
    0: with tenant 0 in the remote table and not in the local one, the
    request is answered 200 and the local table then holds tenant 0. *)
Lemma text_zero_reconciles_tenant_0 :
  let w := running empty_local remote_up in
  let answer := TenantSync.handler Driver.as_integer (Js.Str "0") w in
  Js.truthy (Js.Str "0") = true ∧
  Driver.as_integer (Js.Str "0") = Some 0 ∧
  zero ∈ Db.r_tenant (Db.remoteDb w) ∧
  Db.l_tenant (Db.localDb w) !! 0 = None ∧
  Http.status answer.1 = 200 ∧
  Db.l_tenant (Db.localDb answer.2) !! 0 = Some zero.
Proof.
  split_and!; try by vm_compute.
  apply elem_of_cons; right. apply elem_of_cons; by left.
Qed.

Lemma falsy_tenant_id_rejected_witness :
  TenantSync.handler as_number (Js.Num 0) (running empty_local remote_up)
  = (Http.mkResponse 400 (Failed "tenant_id is required"),
     running empty_local remote_up).
Proof.
  apply (falsy_tenant_id_rejected as_number (Js.Num 0)
           (running empty_local remote_up)).
  reflexivity.
Defined.


Lemma tenant_sync_idempotent_witness :
  let w := running empty_local remote_up in
  let first := TenantSync.handler as_number (Js.Num 7) w in
  ∃ remote rest row r2 w2,
    TenantSync.remote_lookup as_number (Js.Num 7) w = Js.Normal (remote :: rest) ∧
    TenantSync.handler as_number (Js.Num 7) (at_time 2000 first.2) = (r2, w2) ∧
    Http.status r2 = 200 ∧
    Db.l_tenant (Db.localDb w2) = Db.l_tenant (Db.localDb first.2) ∧
    Db.l_tenant (Db.localDb first.2) !! Db.tenant_id remote = Some row ∧
    Db.l_tenant (Db.localDb w2) !! Db.tenant_id remote = Some row ∧
    same_mirrored_fields row remote ∧
    ∃ m1 s1 m2 s2 data,
      Http.json first.1 = Synced m1 s1 data ∧ Http.json r2 = Synced m2 s2 data.
Proof.
  intros w first.
  apply (tenant_sync_idempotent as_number (Js.Num 7) w first.1 first.2 2000).
  - apply surjective_pairing.
  - reflexivity.
Defined.

End TenantSyncSpec.

(** ** The sync log, most recent first *)

Module LogSpec.

Global Instance more_recent_total : Total more_recent.
Proof. intros a b. unfold more_recent. lia. Qed.

Global Instance more_recent_trans : Transitive more_recent.
Proof. intros a b c. unfold more_recent. lia. Qed.

Section sorted_facts.
Context {A : Type} (R : relation A).

(** Dropping elements keeps a list sorted. *)
Lemma StronglySorted_filter (P : A → Prop) `{!∀ x, Decision (P x)} l :
  StronglySorted R l → StronglySorted R (filter P l).
Proof.
  induction 1 as [|x l Hl IH Hx]; [constructor|].
  rewrite filter_cons. case_decide; [|done].
  constructor; [done|].
  apply Forall_forall. intros y [_ Hy]%list_elem_of_filter.
  rewrite Forall_forall in Hx. by apply Hx.
Qed.

(** The head of a sorted list comes before all of it. *)
Lemma StronglySorted_head `{!Reflexive R} x l y :
  StronglySorted R (x :: l) → y ∈ x :: l → R x y.
Proof.
  intros [Hx _]%StronglySorted_cons [->|Hy]%elem_of_cons; [done|].
  rewrite Forall_forall in Hx. by apply Hx.
Qed.

End sorted_facts.

Global Instance more_recent_refl : Reflexive more_recent.
Proof. intros a. unfold more_recent. lia. Qed.

Lemma sorted_log log : StronglySorted more_recent (merge_sort more_recent log).
Proof. apply StronglySorted_merge_sort; apply _. Qed.

(** The statement of the status route returns the ten most recent rows. *)
Lemma recent_sync_logs_spec db :
  ten_most_recent (Db.l_sync_log db) (Db.rows (Sql.recent_sync_logs db)).
Proof.
  simpl. set (sorted := merge_sort more_recent (Db.l_sync_log db)).
  pose proof (sorted_log (Db.l_sync_log db)) as Hsorted. fold sorted in Hsorted.
  rewrite <- (take_drop 10 sorted) in Hsorted.
  apply StronglySorted_app in Hsorted as (Hcross & Htake & _).
  split_and!; [done|rewrite length_take; lia|].
  exists (drop 10 sorted). split_and!.
  - rewrite take_drop. symmetry. apply merge_sort_Permutation.
  - intros Hrest. rewrite length_take.
    destruct (decide (length sorted ≤ 10)%nat) as [Hle|]; [|lia].
    by rewrite drop_ge in Hrest.
  - done.
Qed.

(** Every row of the log is no more recent than the first row of the
    sorted log. *)
Lemma sorted_head_most_recent log first rest x :
  merge_sort more_recent log = first :: rest → x ∈ log → more_recent first x.
Proof.
  intros Hsort Hx.
  apply (StronglySorted_head more_recent first rest).
  - rewrite <- Hsort. apply sorted_log.
  - rewrite <- Hsort. by rewrite merge_sort_Permutation.
Qed.

Lemma sorted_nil log : merge_sort more_recent log = [] → log = [].
Proof.
  intros Hsort. apply Permutation_nil_r.
  rewrite <- Hsort. by rewrite merge_sort_Permutation.
Qed.

End LogSpec.

(** ** GET /api/local/sync-status *)

Module SyncStatusSpec.
Import Run RunSpec SyncStatus LogSpec.

(** The response of the route when the local database answers. *)
Lemma sync_report_eq w :
  local_answers w = true →
  (handler w).1 =
  Http.res_json (Report
    {| is_connected := remote_answers w;
       last_sync_at :=
         Db.synced_at <$>
           head (filter (λ log, Db.success log)
                        (Db.rows (Sql.recent_sync_logs (Db.localDb w))));
       queue_size :=
         Z.of_nat (length (filter (λ r, Db.is_synchronized r = false)
                                  (Db.l_meter_reading (Db.localDb w))));
       sync_errors :=
         as_error <$>
           filter (λ log, ¬ Db.success log)
                  (Db.rows (Sql.recent_sync_logs (Db.localDb w))) |}).
Proof.
  intros [[p Hp] Hup]%local_answers_spec.
  unfold handler, route, bind, syncPool_query, first_count, ret.
  destruct w as [sp rp l r clk tr con]; simpl in *. subst sp. rewrite Hup.
  simpl. rewrite Hup.
  match goal with |- context [remote_probe ?w'] =>
    pose proof (remote_probe_eq w') as Hprobe;
    destruct (remote_probe w') as [[b|e] w''] end; simpl in *; [|done].
  injection Hprobe as ->. unfold remote_answers. simpl.
  do 3 f_equal.
  - by destruct (filter _ _).
  - do 2 f_equal. apply take_ge.
    etrans; [apply length_filter|]. rewrite length_take. lia.
Qed.

Lemma or_string_absent fallback : Js.or_string None fallback = fallback.
Proof. done. Qed.

Lemma or_string_present s fallback :
  s ≠ "" → Js.or_string (Some s) fallback = s.
Proof. intros Hs. simpl. by rewrite bool_decide_eq_false_2. Qed.

(** C2. When the local database answers, the route answers 200 with a
    report in which: queue_size is the number of readings whose
    is_synchronized is false; sync_errors has at most 10 entries, which are
    exactly the rows with success = false among the 10 most recent rows of
    the sync log, in that order (most recent completion first), each reduced
    to its identifier, batch size, completion time and error message, the
    message being "Unknown error" when the row has none; and last_sync_at
    is the completion time of the most recent row with success = true among
    those 10 rows (no successful row of the whole log is more recent), or
    null when none of the 10 rows succeeded. *)
Theorem sync_status_report w :
  local_answers w = true →
  ∃ st recent,
    (handler w).1 = Http.res_json (Report st) ∧
    ten_most_recent (Db.l_sync_log (Db.localDb w)) recent ∧
    queue_size st
      = Z.of_nat (length (filter (λ r, Db.is_synchronized r = false)
                                 (Db.l_meter_reading (Db.localDb w)))) ∧
    (length (sync_errors st) ≤ 10)%nat ∧
    sync_errors st
      = as_error <$> filter (λ log, Db.success log = false) recent ∧
    (∀ e, e ∈ sync_errors st →
       ∃ log, log ∈ recent ∧ Db.success log = false ∧
         sync_log_id e = Db.id log ∧
         batch_size e = Db.batch_size log ∧
         synced_at e = Db.synced_at log ∧
         error_message e = Js.or_string (Db.error_message log) "Unknown error" ∧
         (Db.error_message log = None → error_message e = "Unknown error") ∧
         (∀ m, Db.error_message log = Some m → m ≠ "" → error_message e = m)) ∧
    StronglySorted errors_most_recent_first (sync_errors st) ∧
    match last_sync_at st with
    | Some t =>
      ∃ log, log ∈ recent ∧ Db.success log = true ∧ Db.synced_at log = t ∧
        ∀ other, other ∈ Db.l_sync_log (Db.localDb w) →
                 Db.success other = true → Db.synced_at other ≤ t
    | None => ∀ log, log ∈ recent → Db.success log = false
    end.
Proof.
  intros Hlocal. rewrite (sync_report_eq w Hlocal).
  pose proof (recent_sync_logs_spec (Db.localDb w)) as Hrecent.
  remember (Db.rows (Sql.recent_sync_logs (Db.localDb w))) as recent eqn:Heq.
  clear Heq.
  assert (Hfilter : filter (λ log, ¬ Db.success log) recent
                    = filter (λ log, Db.success log = false) recent).
  { apply list_filter_iff. intros log. apply Is_true_false. }
  eexists _, recent. split; [reflexivity|]. simpl.
  rewrite Hfilter. split; [done|].
  destruct Hrecent as (Hsorted & Hlen & older & Hperm & Hfull & Hcross).
  split_and!.
  - done.
  - rewrite length_fmap. etrans; [apply length_filter|done].
  - done.
  - intros e (log & -> & [Hfail Hlog]%list_elem_of_filter)%list_elem_of_fmap.
    exists log. split_and!; try done.
    + intros Hnone. simpl. by rewrite Hnone.
    + intros m Hm Hne. simpl. rewrite Hm. by apply or_string_present.
  - apply (StronglySorted_fmap _ more_recent); [done|].
    by apply StronglySorted_filter.
  - destruct (filter (λ log, Db.success log) recent) as [|log rest] eqn:Hsucc;
      simpl.
    + intros log Hlog. destruct (Db.success log) eqn:Hs; [|done].
      exfalso. eapply (filter_nil_not_elem_of _ _ log Hsucc); [|done].
      by rewrite Hs.
    + assert (Hin : log ∈ filter (λ log, Db.success log) recent)
        by (rewrite Hsucc; left).
      apply list_elem_of_filter in Hin as [Hs Hin].
      exists log. split_and!; [done|by destruct (Db.success log)|done|].
      intros other Hother Hso.
      rewrite Hperm in Hother. apply elem_of_app in Hother as [Hr|Ho].
      * apply (StronglySorted_head more_recent log rest).
        { rewrite <- Hsucc. by apply StronglySorted_filter. }
        rewrite <- Hsucc. apply list_elem_of_filter. by rewrite Hso.
      * by apply Hcross.
Qed.

Lemma sync_status_report_witness :
  ∃ st recent,
    (handler (Sample.running Sample.local_with_history Sample.remote_up)).1
      = Http.res_json (Report st) ∧
    ten_most_recent Sample.sync_log recent ∧
    queue_size st = 2 ∧
    (length (sync_errors st) ≤ 10)%nat ∧
    sync_errors st
      = as_error <$> filter (λ log, Db.success log = false) recent ∧
    (∀ e, e ∈ sync_errors st →
       ∃ log, log ∈ recent ∧ Db.success log = false ∧
         sync_log_id e = Db.id log ∧
         batch_size e = Db.batch_size log ∧
         synced_at e = Db.synced_at log ∧
         error_message e = Js.or_string (Db.error_message log) "Unknown error" ∧
         (Db.error_message log = None → error_message e = "Unknown error") ∧
         (∀ m, Db.error_message log = Some m → m ≠ "" → error_message e = m)) ∧
    StronglySorted errors_most_recent_first (sync_errors st) ∧
    match last_sync_at st with
    | Some t =>
      ∃ log, log ∈ recent ∧ Db.success log = true ∧ Db.synced_at log = t ∧
        ∀ other, other ∈ Sample.sync_log →
                 Db.success other = true → Db.synced_at other ≤ t
    | None => ∀ log, log ∈ recent → Db.success log = false
    end.
Proof.
  apply (sync_status_report
           (Sample.running Sample.local_with_history Sample.remote_up)).
  reflexivity.
Defined.

(** A success that is older than the ten most recent rows is not seen:
    here the only success is the oldest of eleven rows, and last_sync_at is
    null. *)
Example success_outside_window :
  let log := Sample.log_row 1 "upload" true None ::
             ((λ i, Sample.log_row i "upload" false None) <$>
                [2; 3; 4; 5; 6; 7; 8; 9; 10; 11]) in
  ∃ st,
    (handler (Sample.running (Db.mkLocalDb None ∅ [] log) Sample.remote_up)).1
      = Http.res_json (Report st) ∧
    last_sync_at st = None ∧ length (sync_errors st) = 10%nat.
Proof. eexists. by vm_compute. Qed.

(** On the sample history the report reads: two readings queued, the last
    success at 500, and nine errors from row 12 down to row 3, two of them
    with the default message. *)
Example sample_report :
  (handler (Sample.running Sample.local_with_history Sample.remote_up)).1
  = Http.res_json (Report
      {| is_connected := true;
         last_sync_at := Some 500;
         queue_size := 2;
         sync_errors :=
           [ mkSyncError 12 5 "remote unavailable" 1200;
             mkSyncError 11 5 "Unknown error" 1100;
             mkSyncError 10 5 "refused" 1000;
             mkSyncError 9 5 "refused" 900;
             mkSyncError 8 5 "refused" 800;
             mkSyncError 7 5 "Unknown error" 700;
             mkSyncError 6 5 "refused" 600;
             mkSyncError 4 5 "timeout" 400;
             mkSyncError 3 5 "timeout" 300 ] |}).
Proof. by vm_compute. Qed.

End SyncStatusSpec.

(** ** GET /api/sync/meter-reading-upload/status *)

Module UploadStatusSpec.
Import Run RunSpec UploadStatus LogSpec.

(** Whatever the process, a report of this route says that no upload is
    running. *)
Lemma never_running w st :
  Http.json (handler w).1 = Report st → is_running st = false.
Proof.
  unfold handler, route, bind, syncPool_query, first_count, ret.
  destruct w as [[p|] rp [[msg|] lt lr ll] r clk tr con]; simpl; try done.
  destruct (remote_probe _) as [[b|e] w']; simpl; [|done].
  by intros [= <-].
Qed.

(** The response of the route when the local database answers. *)
Lemma upload_report_eq w :
  local_answers w = true →
  (handler w).1 =
  let lastUpload := head (Db.rows (Sql.last_upload (Db.localDb w))) in
  Http.res_json (Report
    {| is_running := false;
       last_upload_time := Db.synced_at <$> lastUpload;
       last_upload_success := Db.success <$> lastUpload;
       last_upload_error := lastUpload ≫= (λ l, Js.or_null (Db.error_message l));
       queue_size :=
         Z.of_nat (length (filter (λ r, Db.is_synchronized r = false)
                                  (Db.l_meter_reading (Db.localDb w))));
       total_uploaded := 0;
       total_failed := 0;
       is_client_connected := remote_answers w |}).
Proof.
  intros [[p Hp] Hup]%RunSpec.local_answers_spec.
  unfold handler, route, bind, syncPool_query, first_count, ret.
  destruct w as [sp rp l r clk tr con]; simpl in *. subst sp. rewrite Hup.
  simpl. rewrite Hup.
  match goal with |- context [remote_probe ?w'] =>
    pose proof (remote_probe_eq w') as Hprobe;
    destruct (remote_probe w') as [[b|e] w''] end; simpl in *; [|done].
  by injection Hprobe as ->.
Qed.

(** The row the statement of the route returns, if any, is an upload row
    of the log that no upload row is more recent than. *)
Lemma last_upload_spec db :
  let uploads := filter (λ l, Db.operation_type l = "upload") (Db.l_sync_log db) in
  match head (Db.rows (Sql.last_upload db)) with
  | None => uploads = []
  | Some last =>
    last ∈ uploads ∧ ∀ other, other ∈ uploads → more_recent last other
  end.
Proof.
  simpl. set (uploads := filter _ _).
  destruct (merge_sort more_recent uploads) as [|last rest] eqn:Hsort; simpl.
  - by apply sorted_nil.
  - split.
    + rewrite <- (merge_sort_Permutation more_recent uploads), Hsort. left.
    + intros other. by apply (sorted_head_most_recent uploads last rest).
Qed.

(** C8. A report of the upload-status route always has is_running =
    false.  When the local database answers, the route answers 200 with a
    report whose queue_size is the number of readings with is_synchronized
    = false, and whose last_upload_time, last_upload_success and
    last_upload_error are all null when the log has no row of operation
    type "upload", and otherwise are taken from one upload row that no
    other upload row is more recent than: its completion time, its
    success flag, and its error message, the message being reported as it
    is when it is not empty and as null when the row has none or an empty
    one. *)
Theorem upload_status_report w :
  (∀ st, Http.json (handler w).1 = Report st → is_running st = false) ∧
  (local_answers w = true →
   ∃ st,
     (handler w).1 = Http.res_json (Report st) ∧
     is_running st = false ∧
     queue_size st
       = Z.of_nat (length (filter (λ r, Db.is_synchronized r = false)
                                  (Db.l_meter_reading (Db.localDb w)))) ∧
     let uploads := filter (λ l, Db.operation_type l = "upload")
                           (Db.l_sync_log (Db.localDb w)) in
     (uploads = [] →
        last_upload_time st = None ∧ last_upload_success st = None ∧
        last_upload_error st = None) ∧
     (uploads ≠ [] →
        ∃ last, last ∈ uploads ∧
          (∀ other, other ∈ uploads → Db.synced_at other ≤ Db.synced_at last) ∧
          last_upload_time st = Some (Db.synced_at last) ∧
          last_upload_success st = Some (Db.success last) ∧
          (∀ m, Db.error_message last = Some m → m ≠ "" →
             last_upload_error st = Some m) ∧
          (Db.error_message last = None ∨ Db.error_message last = Some "" →
             last_upload_error st = None))).
Proof.
  split; [apply never_running|].
  intros Hlocal. rewrite (upload_report_eq w Hlocal).
  pose proof (last_upload_spec (Db.localDb w)) as Hlast.
  eexists. split; [reflexivity|]. cbn zeta in *. cbn [is_running queue_size
    last_upload_time last_upload_success last_upload_error].
  split_and!; try done.
  - intros Hnone.
    destruct (head _) as [last|]; [|done].
    destruct Hlast as [Hin _]. rewrite Hnone in Hin.
    by apply elem_of_nil in Hin.
  - intros Hsome.
    destruct (head _) as [last|]; [|done].
    destruct Hlast as [Hin Hmax]. exists last.
    split_and!; try done; simpl.
    + intros m -> Hm. simpl. by rewrite bool_decide_eq_false_2.
    + by intros [-> | ->].
Qed.

(** On two histories: one whose last upload (at 1100) failed without a
    message, and one whose last upload (at 300) failed with the message
    "remote API timeout", which the report carries. *)
Lemma upload_status_report_witness :
  (let w := Sample.running Sample.local_with_history Sample.remote_up in
   ∃ st,
     (handler w).1 = Http.res_json (Report st) ∧
     is_running st = false ∧
     queue_size st = 2 ∧
     last_upload_time st = Some 1100 ∧
     last_upload_success st = Some false ∧
     last_upload_error st = None) ∧
  (let w := Sample.running FailedUpload.local Sample.remote_up in
   ∃ st,
     (handler w).1 = Http.res_json (Report st) ∧
     is_running st = false ∧
     queue_size st = 2 ∧
     last_upload_time st = Some 300 ∧
     last_upload_success st = Some false ∧
     last_upload_error st = Some "remote API timeout").
Proof.
  split; intros w.
  - destruct (upload_status_report w) as [_ Hreport].
    destruct (Hreport eq_refl) as (st & Heq & Hrun & Hqueue & _).
    exists st. split; [done|]. split; [done|]. split; [done|].
    rewrite (upload_report_eq w eq_refl) in Heq. injection Heq as <-.
    by vm_compute.
  - destruct (upload_status_report w) as [_ Hreport].
    destruct (Hreport eq_refl)
      as (st & Heq & Hrun & Hqueue & _ & Hlast).
    destruct Hlast as (last & Hin & Hmax & Htime & Hsuccess & Hmessage & _);
      [by vm_compute|].
    exists st. split; [done|]. split; [done|]. split; [done|].
    assert (Hlast : last = Sample.log_row 3 "upload" false
                             (Some "remote API timeout")).
    { assert (H3 : Sample.log_row 3 "upload" false (Some "remote API timeout")
                   ∈ filter (λ l, Db.operation_type l = "upload")
                            (Db.l_sync_log (Db.localDb w)))
        by (apply list_elem_of_filter; split; [done|];
            apply elem_of_cons; right; apply elem_of_cons; right;
            apply elem_of_cons; left; reflexivity).
      apply Hmax in H3.
      vm_compute in Hin.
      repeat (apply elem_of_cons in Hin as [->|Hin]; [try done|]);
        try (by apply elem_of_nil in Hin);
        exfalso; vm_compute in H3; by apply H3. }
    subst last. split; [done|]. split; [done|].
    by apply Hmessage.
Defined.

End UploadStatusSpec.

(** ** Startup (config/database.ts, startServer) *)

Module DatabaseSpec.
Import Run Database.

(** Whether a given line is among the two that were printed. *)
Local Ltac console_line :=
  rewrite !elem_of_cons, elem_of_nil;
  split;
  [ intros [?|[?|[]]]; simplify_eq; eauto
  | intros [? ?]; simplify_eq; eauto ].

(** [initializePools] from the process as it boots. *)
Lemma initializePools_eq l r now :
  initializePools (boot l r now) =
  (Js.Normal tt,
   {| Db.syncPool := Some Db.new_Pool;
      Db.remotePool := Some Db.new_Pool;
      Db.localDb := l;
      Db.remoteDb := r;
      Db.clock := now;
      Db.trace := [(Db.Local, Db.SelectNow); (Db.Remote, Db.SelectNow)];
      Db.console := [sync_test_line l; remote_test_line r] |}).
Proof.
  unfold initializePools, boot, bind, modify, try_catch, read,
    syncPool_query, remotePool_query, sync_test_line, remote_test_line.
  destruct l as [[lmsg|] lt lr ll], r as [[rmsg|] rt]; reflexivity.
Qed.

(** C9, amended. Neither startup connectivity test is fatal: whatever the
    two databases do, [initializePools] assigns both pools, tries each once,
    and completes normally, so that [startServer] goes on to listen.  A
    failed local test is printed at error level and a failed remote test at
    warning level; that is the only difference at startup.  Afterwards,
    while the local database cannot be reached, the status routes (which
    query it) answer 500, and they answer 200 when it can. *)
Theorem startup_tolerates_both_failures l r now :
  let w := (initializePools (boot l r now)).2 in
  (initializePools (boot l r now)).1 = Js.Normal tt ∧
  (startServer (boot l r now)).1 = Listening ∧
  Db.syncPool w = Some Db.new_Pool ∧
  Db.remotePool w = Some Db.new_Pool ∧
  Db.localDb w = l ∧ Db.remoteDb w = r ∧
  Db.console w = [sync_test_line l; remote_test_line r] ∧
  ((Db.ERROR, "[Database] Failed to connect to sync database:") ∈ Db.console w
    ↔ is_Some (Db.l_fault l)) ∧
  ((Db.WARN, "[Database] Failed to connect to remote database:") ∈ Db.console w
    ↔ is_Some (Db.r_fault r)) ∧
  Http.status (SyncStatus.handler w).1
    = (if Db.l_fault l is Some _ then 500 else 200) ∧
  Http.status (UploadStatus.handler w).1
    = (if Db.l_fault l is Some _ then 500 else 200).
Proof.
  unfold startServer. rewrite initializePools_eq. simpl.
  split_and!; try done.
  - unfold sync_test_line, remote_test_line.
    destruct (Db.l_fault l), (Db.r_fault r); console_line.
  - unfold sync_test_line, remote_test_line.
    destruct (Db.l_fault l), (Db.r_fault r); console_line.
  - destruct (Db.l_fault l) as [msg|] eqn:Hl.
    + unfold SyncStatus.handler, SyncStatus.route, bind, syncPool_query.
      simpl. by rewrite Hl.
    + erewrite SyncStatusSpec.sync_report_eq; [done|].
      apply RunSpec.local_answers_spec. by split; [eexists|].
  - destruct (Db.l_fault l) as [msg|] eqn:Hl.
    + unfold UploadStatus.handler, UploadStatus.route, bind, syncPool_query.
      simpl. by rewrite Hl.
    + erewrite UploadStatusSpec.upload_report_eq; [done|].
      apply RunSpec.local_answers_spec. by split; [eexists|].
Qed.

(** C9 as it is written fails.  The local database cannot be reached when
    the process boots; [initializePools] completes normally all the same,
    just as it does when only the remote database cannot be reached, and
    [startServer] listens. *)
Lemma local_failure_is_not_fatal :
  (initializePools (boot Sample.local_down Sample.remote_up 0)).1
    = Js.Normal tt ∧
  (initializePools (boot Sample.empty_local Sample.remote_down 0)).1
    = Js.Normal tt ∧
  (startServer (boot Sample.local_down Sample.remote_up 0)).1 = Listening ∧
  ¬ startup_as_described.
Proof.
  split_and!; try by vm_compute.
  intros Hdescribed.
  destruct (Hdescribed Sample.local_down Sample.remote_up 0) as [_ Hfatal].
  apply Hfatal; [by eexists | by vm_compute].
Qed.

End DatabaseSpec.

(** * Further properties of the code *)

(** ** Health checks and health routes *)

Module HealthSpec.
Import Run RunSpec Health.

Lemma local_answers_false w :
  local_answers w = false ↔
  Db.syncPool w = None ∨ is_Some (Db.l_fault (Db.localDb w)).
Proof.
  unfold local_answers.
  destruct (Db.syncPool w) as [p|], (Db.l_fault (Db.localDb w)) as [m|];
    simpl; split; intros H; try done; eauto.
  destruct H as [H|[? H]]; done.
Qed.

Lemma remote_answers_spec w :
  remote_answers w = true ↔
  is_Some (Db.remotePool w) ∧ Db.r_fault (Db.remoteDb w) = None.
Proof.
  unfold remote_answers. by rewrite andb_true_iff, !bool_decide_eq_true.
Qed.

(** The two checks, case by case. *)
Lemma healthCheckSync_eq w :
  healthCheckSync w =
  match Db.syncPool w with
  | None =>
    (Js.Normal (mkCheck "unhealthy" None (Some (Js.message Js.TypeError_query))),
     w)
  | Some _ =>
    (Js.Normal
       match Db.l_fault (Db.localDb w) with
       | Some msg => mkCheck "unhealthy" None (Some msg)
       | None => mkCheck "healthy" (Some (Db.clock w)) None
       end,
     sent (Db.Local, Db.SelectNow) w)
  end.
Proof.
  unfold healthCheckSync, try_catch, bind, read, syncPool_query, first_now, ret.
  destruct w as [[p|] rp [[msg|] lt lr ll] r clk tr con]; reflexivity.
Qed.

Lemma healthCheckRemote_eq w :
  healthCheckRemote w =
  match Db.remotePool w with
  | None =>
    (Js.Normal (mkCheck "unhealthy" None (Some (Js.message Js.TypeError_query))),
     w)
  | Some _ =>
    (Js.Normal
       match Db.r_fault (Db.remoteDb w) with
       | Some msg => mkCheck "unhealthy" None (Some msg)
       | None => mkCheck "healthy" (Some (Db.clock w)) None
       end,
     sent (Db.Remote, Db.SelectNow) w)
  end.
Proof.
  unfold healthCheckRemote, try_catch, bind, read, remotePool_query,
    first_now, ret.
  destruct w as [sp [p|] l [[msg|] rt] clk tr con]; reflexivity.
Qed.

(** X1. A health check never throws.  It completes with status "healthy"
    and the time exactly when its database answers, and otherwise with
    status "unhealthy" and an error message, which is the driver's message
    when the database cannot be reached; it sends at most its one
    [SELECT NOW()] and leaves both databases as they are. *)
Theorem health_checks_never_throw w :
  (∃ c w',
     healthCheckSync w = (Js.Normal c, w') ∧
     (status c = "healthy" ↔ local_answers w = true) ∧
     (local_answers w = true →
        c = mkCheck "healthy" (Some (Db.clock w)) None) ∧
     (local_answers w = false →
        status c = "unhealthy" ∧ timestamp c = None ∧ is_Some (error c)) ∧
     (∀ p msg, Db.syncPool w = Some p → Db.l_fault (Db.localDb w) = Some msg →
        error c = Some msg) ∧
     Db.localDb w' = Db.localDb w ∧ Db.remoteDb w' = Db.remoteDb w ∧
     (Db.trace w' = Db.trace w ∨
      Db.trace w' = (Db.trace w ++ [(Db.Local, Db.SelectNow)])%list)) ∧
  (∃ c w',
     healthCheckRemote w = (Js.Normal c, w') ∧
     (status c = "healthy" ↔ remote_answers w = true) ∧
     (remote_answers w = true →
        c = mkCheck "healthy" (Some (Db.clock w)) None) ∧
     (remote_answers w = false →
        status c = "unhealthy" ∧ timestamp c = None ∧ is_Some (error c)) ∧
     (∀ p msg, Db.remotePool w = Some p → Db.r_fault (Db.remoteDb w) = Some msg →
        error c = Some msg) ∧
     Db.localDb w' = Db.localDb w ∧ Db.remoteDb w' = Db.remoteDb w ∧
     (Db.trace w' = Db.trace w ∨
      Db.trace w' = (Db.trace w ++ [(Db.Remote, Db.SelectNow)])%list)).
Proof.
  split.
  - rewrite healthCheckSync_eq. unfold local_answers.
    destruct (Db.syncPool w) as [p|]; simpl.
    + eexists _, _. split; [reflexivity|].
      destruct (Db.l_fault (Db.localDb w)) as [msg|]; simpl;
        split_and!; try done; eauto.
    + eexists _, _. split; [reflexivity|]. simpl.
      split_and!; try done; eauto.
  - rewrite healthCheckRemote_eq. unfold remote_answers.
    destruct (Db.remotePool w) as [p|]; simpl.
    + eexists _, _. split; [reflexivity|].
      destruct (Db.r_fault (Db.remoteDb w)) as [msg|]; simpl;
        split_and!; try done; eauto.
    + eexists _, _. split; [reflexivity|]. simpl.
      split_and!; try done; eauto.
Qed.

End HealthSpec.

(** ** What the routes change *)

Module FrameSpec.
Import Run RunSpec Frame.

Lemma sent_all_nil w : sent_all [] w = w.
Proof. destruct w. unfold sent_all. simpl. by rewrite app_nil_r. Qed.

Lemma sent_sent_all a more w :
  sent a (sent_all more w) = sent_all (more ++ [a]) w.
Proof. unfold sent, sent_all. simpl. by rewrite app_assoc. Qed.

Lemma sent_as_sent_all a w : sent a w = sent_all [a] w.
Proof. by rewrite <- (sent_all_nil w) at 1; rewrite sent_sent_all. Qed.

(** The remote probe sends at most its [SELECT 1]. *)
Lemma remote_probe_world w :
  (remote_probe w).2 =
  sent_all (if Db.remotePool w is Some _ then [(Db.Remote, Db.SelectOne)] else []) w.
Proof.
  unfold remote_probe, try_catch, bind, remotePool_query, ret, sent_all, sent.
  destruct w as [sp [p|] l [[msg|] rt] clk tr con]; simpl;
    by rewrite ?app_nil_r.
Qed.

Lemma sync_status_world w :
  (SyncStatus.handler w).2 = sent_all (status_statements Db.RecentSyncLogs w) w.
Proof.
  unfold SyncStatus.handler, SyncStatus.route, bind, syncPool_query,
    first_count, ret, status_statements.
  destruct (Db.syncPool w) as [p|] eqn:Hp; simpl; [|by rewrite sent_all_nil].
  destruct (Db.l_fault (Db.localDb w)) as [msg|] eqn:Hf; simpl;
    [by rewrite sent_as_sent_all|].
  rewrite Hp. simpl. rewrite Hf. simpl.
  match goal with |- context [remote_probe ?w'] =>
    pose proof (remote_probe_world w') as Hw;
    destruct (remote_probe w') as [[b|e] w''] end; simpl in *; subst w'';
    destruct w as [sp [q|] l r clk tr con]; unfold sent_all, sent; simpl;
    by rewrite <- !app_assoc.
Qed.

Lemma upload_status_world w :
  (UploadStatus.handler w).2 = sent_all (status_statements Db.LastUpload w) w.
Proof.
  unfold UploadStatus.handler, UploadStatus.route, bind, syncPool_query,
    first_count, ret, status_statements.
  destruct (Db.syncPool w) as [p|] eqn:Hp; simpl; [|by rewrite sent_all_nil].
  destruct (Db.l_fault (Db.localDb w)) as [msg|] eqn:Hf; simpl;
    [by rewrite sent_as_sent_all|].
  rewrite Hp. simpl. rewrite Hf. simpl.
  match goal with |- context [remote_probe ?w'] =>
    pose proof (remote_probe_world w') as Hw;
    destruct (remote_probe w') as [[b|e] w''] end; simpl in *; subst w'';
    destruct w as [sp [q|] l r clk tr con]; unfold sent_all, sent; simpl;
    by rewrite <- !app_assoc.
Qed.

Lemma sync_db_route_world w :
  (Health.sync_db_route w).2 =
  sent_all (if Db.syncPool w is Some _ then [(Db.Local, Db.SelectNow)] else []) w.
Proof.
  unfold Health.sync_db_route, Health.db_route.
  rewrite HealthSpec.healthCheckSync_eq.
  destruct (Db.syncPool w) as [p|]; simpl.
  - rewrite sent_as_sent_all. by case_bool_decide.
  - by rewrite sent_all_nil.
Qed.

Lemma remote_db_route_world w :
  (Health.remote_db_route w).2 =
  sent_all (if Db.remotePool w is Some _ then [(Db.Remote, Db.SelectNow)] else []) w.
Proof.
  unfold Health.remote_db_route, Health.db_route.
  rewrite HealthSpec.healthCheckRemote_eq.
  destruct (Db.remotePool w) as [p|]; simpl.
  - rewrite sent_as_sent_all. by case_bool_decide.
  - by rewrite sent_all_nil.
Qed.

End FrameSpec.

(** ** The routes as one server *)

Module AppSpec.
Import Run RunSpec Frame FrameSpec.

Global Instance kept_refl : Reflexive kept.
Proof. intros w. unfold kept. by split_and!. Qed.

Global Instance kept_trans : Transitive kept.
Proof.
  intros a b c (?&?&?&?&?&?&?&?&?&?) (?&?&?&?&?&?&?&?&?&?).
  unfold kept. split_and!; try congruence; by etrans.
Qed.

Lemma kept_sent_all more w : kept w (sent_all more w).
Proof.
  unfold kept, sent_all. simpl. split_and!; try done.
  by apply prefix_app_r.
Qed.

Lemma kept_sent a w : kept w (sent a w).
Proof. rewrite sent_as_sent_all. apply kept_sent_all. Qed.

Section server.
Variable tenant_key : Js.Value → option Z.

Local Abbreviation tenant_sync := (TenantSync.handler tenant_key).
Local Abbreviation remote_lookup := (TenantSync.remote_lookup tenant_key).
Local Abbreviation serve := (App.serve tenant_key).
Local Abbreviation serve_all := (App.serve_all tenant_key).

(** X2. A tenant sync sends at most two statements: the remote lookup
    before anything else, and the local upsert only after the lookup has
    returned a row, proposing the first row returned; the upsert is the
    only statement it ever sends to the local database. *)
Theorem tenant_sync_statements tenant_id w :
  let more := sync_statements tenant_key tenant_id w in
  Db.trace (tenant_sync tenant_id w).2 = (Db.trace w ++ more)%list ∧
  (length more ≤ 2)%nat ∧
  (more ≠ [] → head more = Some (Db.Remote, Db.SelectTenantById tenant_id)) ∧
  (∀ row, (Db.Local, Db.UpsertTenant row) ∈ more →
     ∃ rest, remote_lookup tenant_id w = Js.Normal (row :: rest)) ∧
  (∀ a, a ∈ more → a.1 = Db.Local → ∃ row, a.2 = Db.UpsertTenant row).
Proof.
  simpl. split.
  { rewrite TenantSyncSpec.handler_eq. unfold sync_statements.
    destruct (Js.truthy tenant_id); simpl; [|by rewrite app_nil_r].
    destruct (Db.remotePool w) as [p|]; simpl; [|by rewrite app_nil_r].
    destruct (remote_lookup tenant_id w) as [[|remote rest]|e]; simpl;
      [done| |done].
    destruct (Db.syncPool w) as [q|]; simpl; [|done].
    destruct (Db.l_fault (Db.localDb w)) as [msg|]; simpl;
      by rewrite <- app_assoc. }
  unfold sync_statements.
  destruct (Js.truthy tenant_id); simpl;
    [|split_and!; [lia|done|by intros ? ?%elem_of_nil|by intros ? ?%elem_of_nil]].
  destruct (Db.remotePool w) as [p|]; simpl;
    [|split_and!; [lia|done|by intros ? ?%elem_of_nil|by intros ? ?%elem_of_nil]].
  destruct (remote_lookup tenant_id w) as [[|remote rest]|e]; simpl.
  - split_and!; [lia|done| |]; intros ? ?%list_elem_of_singleton; by subst.
  - destruct (Db.syncPool w) as [q|]; simpl.
    + split_and!; [lia|done| |].
      * intros row Hrow. apply elem_of_cons in Hrow as [Heq|Hrow]; [done|].
        apply list_elem_of_singleton in Hrow. injection Hrow as ->.
        by eexists.
      * intros a [->|Ha]%elem_of_cons; [done|].
        apply list_elem_of_singleton in Ha as ->. by eexists.
    + split_and!; [lia|done| |]; intros ? ?%list_elem_of_singleton; by subst.
  - split_and!; [lia|done| |]; intros ? ?%list_elem_of_singleton; by subst.
Qed.

Lemma tenant_sync_kept tenant_id w : kept w (tenant_sync tenant_id w).2.
Proof.
  rewrite TenantSyncSpec.handler_eq.
  destruct (Js.truthy tenant_id); simpl; [|done].
  destruct (Db.remotePool w) as [p|]; [|done].
  destruct (remote_lookup tenant_id w) as [[|remote rest]|e]; simpl;
    [apply kept_sent| |apply kept_sent].
  destruct (Db.syncPool w) as [q|]; [|apply kept_sent].
  destruct (Db.l_fault (Db.localDb w)) as [msg|]; simpl.
  - etrans; apply kept_sent.
  - unfold kept. simpl. split_and!; try done.
    + apply dom_insert_subseteq.
    + rewrite <- app_assoc. by apply prefix_app_r.
Qed.

Lemma serve_kept req w : kept w (serve req w).2.
Proof.
  destruct req as [| | |tenant_id| |]; simpl.
  - done.
  - pose proof (sync_db_route_world w) as Hw.
    destruct (Health.sync_db_route w) as [r w']; simpl in *; subst.
    apply kept_sent_all.
  - pose proof (remote_db_route_world w) as Hw.
    destruct (Health.remote_db_route w) as [r w']; simpl in *; subst.
    apply kept_sent_all.
  - pose proof (tenant_sync_kept tenant_id w) as Hw.
    by destruct (tenant_sync tenant_id w).
  - pose proof (sync_status_world w) as Hw.
    destruct (SyncStatus.handler w) as [r w']; simpl in *; subst.
    apply kept_sent_all.
  - pose proof (upload_status_world w) as Hw.
    destruct (UploadStatus.handler w) as [r w']; simpl in *; subst.
    apply kept_sent_all.
Qed.

(** X3. Whatever requests the server serves, in whatever order, it never
    reassigns a pool, never changes the remote database, never changes the
    readings or the sync log of the local database (a tenant sync writes no
    log entry), never removes a tenant from the local table, and never
    loses a statement from its trace. *)
Theorem server_keeps reqs w : kept w (serve_all reqs w).
Proof.
  revert w. induction reqs as [|req reqs IH]; intros w; simpl; [done|].
  etrans; [apply serve_kept|apply IH].
Qed.

(** X4. A request to any route but the tenant sync changes nothing in the
    process: it sends at most three statements, all of them [SELECT]s. *)
Theorem other_routes_only_read req w :
  (∀ tenant_id, req ≠ App.PostTenantSync tenant_id) →
  ∃ more,
    (serve req w).2 = sent_all more w ∧
    Forall is_select more ∧ (length more ≤ 3)%nat.
Proof.
  intros Hreq. destruct req as [| | |tenant_id| |]; simpl.
  - exists []. rewrite sent_all_nil. split_and!; [done|constructor|simpl; lia].
  - pose proof (sync_db_route_world w) as Hw.
    destruct (Health.sync_db_route w) as [r w']; simpl in *; subst.
    eexists. split; [done|].
    destruct (Db.syncPool w); (split; [by repeat constructor|simpl; lia]).
  - pose proof (remote_db_route_world w) as Hw.
    destruct (Health.remote_db_route w) as [r w']; simpl in *; subst.
    eexists. split; [done|].
    destruct (Db.remotePool w); (split; [by repeat constructor|simpl; lia]).
  - by destruct (Hreq tenant_id).
  - pose proof (sync_status_world w) as Hw.
    destruct (SyncStatus.handler w) as [r w']; simpl in *; subst.
    eexists. split; [done|]. unfold status_statements.
    destruct (Db.syncPool w), (Db.l_fault (Db.localDb w)), (Db.remotePool w);
      (split; [by repeat constructor|simpl; lia]).
  - pose proof (upload_status_world w) as Hw.
    destruct (UploadStatus.handler w) as [r w']; simpl in *; subst.
    eexists. split; [done|]. unfold status_statements.
    destruct (Db.syncPool w), (Db.l_fault (Db.localDb w)), (Db.remotePool w);
      (split; [by repeat constructor|simpl; lia]).
Qed.

(** X5. A tenant sync changes at most one row of the local tenant table:
    if the row under an identifier differs after the request, the request
    was answered 200 and the identifier is that of the remote record the
    lookup found.  A request answered otherwise changes no row. *)
Theorem tenant_sync_touches_one_row tenant_id w k :
  Db.l_tenant (Db.localDb (tenant_sync tenant_id w).2) !! k
    ≠ Db.l_tenant (Db.localDb w) !! k →
  Http.status (tenant_sync tenant_id w).1 = 200 ∧
  ∃ remote rest,
    remote_lookup tenant_id w = Js.Normal (remote :: rest) ∧
    k = Db.tenant_id remote.
Proof.
  rewrite TenantSyncSpec.handler_eq.
  destruct (Js.truthy tenant_id); simpl; [|done].
  destruct (Db.remotePool w) as [p|]; [|done].
  destruct (remote_lookup tenant_id w) as [[|remote rest]|e]; simpl;
    [done| |done].
  destruct (Db.syncPool w) as [q|]; [|done].
  destruct (Db.l_fault (Db.localDb w)) as [msg|]; simpl; [done|].
  intros Hk. split; [done|]. exists remote, rest. split; [done|].
  destruct (decide (k = Db.tenant_id remote)) as [|Hne]; [done|].
  by rewrite lookup_insert_ne in Hk.
Qed.

(** X6. The body of a tenant-sync response says success exactly when the
    status is 200, and the status is one of 200, 400, 404, 500 and 503. *)
Theorem tenant_sync_flag_and_status tenant_id w :
  let r := (tenant_sync tenant_id w).1 in
  (TenantSync.success (Http.json r) = true ↔ Http.status r = 200) ∧
  Http.status r ∈ [200; 400; 404; 500; 503].
Proof.
  simpl. rewrite TenantSyncSpec.handler_eq.
  destruct (Js.truthy tenant_id); simpl; [|split; [done|set_solver]].
  destruct (Db.remotePool w) as [p|]; [|split; [done|set_solver]].
  destruct (remote_lookup tenant_id w) as [[|remote rest]|e]; simpl;
    [split; [done|set_solver]| |split; [done|set_solver]].
  destruct (Db.syncPool w) as [q|]; [|split; [done|set_solver]].
  destruct (Db.l_fault (Db.localDb w)) as [msg|]; simpl;
    split; [done|set_solver|done|set_solver].
Qed.

(** X7. Once [startServer] has run, the tenant sync never answers 503,
    whatever was served in between: both pool variables are assigned for
    good.  A remote database that cannot be reached then makes a request
    with a truthy identifier fail with 500 and the driver's message. *)
Theorem no_503_once_started l r now reqs tenant_id :
  let w := serve_all reqs (Database.startServer (Database.boot l r now)).2 in
  Http.status (tenant_sync tenant_id w).1 ≠ 503 ∧
  (∀ msg, Js.truthy tenant_id = true → Db.r_fault r = Some msg →
     (tenant_sync tenant_id w).1
       = Http.mkResponse 500 (TenantSync.FailedAt msg now)).
Proof.
  simpl. unfold Database.startServer.
  rewrite DatabaseSpec.initializePools_eq. simpl.
  match goal with |- context [serve_all reqs ?w0] =>
    pose proof (server_keeps reqs w0) as Hkept;
    set (w := serve_all reqs w0) in * end.
  destruct Hkept as (_ & Hpool & Hremote & Hclock & _). simpl in *.
  rewrite TenantSyncSpec.handler_eq. unfold TenantSync.remote_lookup.
  rewrite Hpool, Hremote, Hclock.
  split.
  - destruct (Js.truthy tenant_id); simpl; [|done].
    destruct (Db.r_fault r); simpl; [done|].
    destruct (TenantSync.select_tenant_by_id _ _ _) as [[[|remote rest] n]|e];
      simpl; try done.
    destruct (Db.syncPool w); [|done].
    by destruct (Db.l_fault (Db.localDb w)).
  - intros msg -> ->. done.
Qed.

End server.

Lemma other_routes_only_read_witness :
  ∃ more,
    (App.serve Sample.as_number App.GetSyncStatus
       (Sample.running Sample.local_with_history Sample.remote_up)).2
      = sent_all more (Sample.running Sample.local_with_history Sample.remote_up) ∧
    Forall is_select more ∧ (length more ≤ 3)%nat.
Proof.
  apply (other_routes_only_read Sample.as_number App.GetSyncStatus).
  intros tenant_id. discriminate.
Defined.

Lemma tenant_sync_touches_one_row_witness :
  Http.status
    (TenantSync.handler Sample.as_number (Js.Num 7)
       (Sample.running Sample.empty_local Sample.remote_up)).1 = 200 ∧
  ∃ remote rest,
    TenantSync.remote_lookup Sample.as_number (Js.Num 7)
      (Sample.running Sample.empty_local Sample.remote_up)
      = Js.Normal (remote :: rest) ∧
    7 = Db.tenant_id remote.
Proof.
  apply (tenant_sync_touches_one_row Sample.as_number (Js.Num 7)
           (Sample.running Sample.empty_local Sample.remote_up) 7).
  vm_compute. discriminate.
Defined.

End AppSpec.

(** ** Health routes and the status reports *)

Module StatusSpec.
Import Run RunSpec Frame FrameSpec HealthSpec.

Lemma local_answers_cases w :
  local_answers w = true ∨ local_answers w = false.
Proof. destruct (local_answers w); auto. Qed.

(** Without the local database the status routes answer 500. *)
Lemma sync_status_failed w :
  local_answers w = false →
  ∃ msg, (SyncStatus.handler w).1 = Http.mkResponse 500 (SyncStatus.Failed msg).
Proof.
  unfold local_answers, SyncStatus.handler, SyncStatus.route, bind,
    syncPool_query.
  destruct w as [[p|] rp [[msg|] lt lr ll] r clk tr con]; simpl;
    intros; try done; by eexists.
Qed.

Lemma upload_status_failed w :
  local_answers w = false →
  ∃ msg,
    (UploadStatus.handler w).1 = Http.mkResponse 500 (UploadStatus.Failed msg).
Proof.
  unfold local_answers, UploadStatus.handler, UploadStatus.route, bind,
    syncPool_query.
  destruct w as [[p|] rp [[msg|] lt lr ll] r clk tr con]; simpl;
    intros; try done; by eexists.
Qed.

Lemma sync_status_reports w st :
  Http.json (SyncStatus.handler w).1 = SyncStatus.Report st →
  local_answers w = true.
Proof.
  destruct (local_answers_cases w) as [|Hno]; [done|].
  destruct (sync_status_failed w Hno) as [msg ->]. done.
Qed.

Lemma upload_status_reports w st :
  Http.json (UploadStatus.handler w).1 = UploadStatus.Report st →
  local_answers w = true.
Proof.
  destruct (local_answers_cases w) as [|Hno]; [done|].
  destruct (upload_status_failed w Hno) as [msg ->]. done.
Qed.

(** The status codes of the routes the monitor probes. *)
Lemma sync_db_route_status w :
  Http.status (Health.sync_db_route w).1
  = if local_answers w then 200 else 503.
Proof.
  unfold Health.sync_db_route, Health.db_route, local_answers.
  rewrite healthCheckSync_eq.
  destruct (Db.syncPool w) as [p|]; simpl; [|done].
  by destruct (Db.l_fault (Db.localDb w)).
Qed.

Lemma remote_db_route_status w :
  Http.status (Health.remote_db_route w).1
  = if remote_answers w then 200 else 503.
Proof.
  unfold Health.remote_db_route, Health.db_route, remote_answers.
  rewrite healthCheckRemote_eq.
  destruct (Db.remotePool w) as [p|]; simpl; [|done].
  by destruct (Db.r_fault (Db.remoteDb w)).
Qed.

Lemma sync_status_status w :
  Http.status (SyncStatus.handler w).1
  = if local_answers w then 200 else 500.
Proof.
  destruct (local_answers w) eqn:Hlocal.
  - by rewrite SyncStatusSpec.sync_report_eq.
  - by destruct (sync_status_failed w Hlocal) as [msg ->].
Qed.

(** X8. GET /health answers 200 with the time whatever the databases do,
    and sends nothing.  Each database health route answers 200 with
    status "ok" and the time exactly when its database answers, and 503
    with status "error" and the error message otherwise; it never answers
    anything else. *)
Theorem health_routes_answer w :
  Health.health_route w = (Http.res_json (Health.Alive "ok" (Db.clock w)), w) ∧
  (Health.sync_db_route w).1
    = (if local_answers w
       then Http.res_json (Health.Up "ok" "sync" (Some (Db.clock w)))
       else Http.mkResponse 503
              (Health.Down "error" "sync"
                 (Some (default (Js.message Js.TypeError_query)
                                (Db.syncPool w ≫= λ _, Db.l_fault (Db.localDb w)))))) ∧
  (Health.remote_db_route w).1
    = (if remote_answers w
       then Http.res_json (Health.Up "ok" "remote" (Some (Db.clock w)))
       else Http.mkResponse 503
              (Health.Down "error" "remote"
                 (Some (default (Js.message Js.TypeError_query)
                                (Db.remotePool w ≫= λ _, Db.r_fault (Db.remoteDb w)))))) ∧
  (Http.status (Health.sync_db_route w).1 = 200 ↔ local_answers w = true) ∧
  (Http.status (Health.remote_db_route w).1 = 200 ↔ remote_answers w = true).
Proof.
  split_and!.
  - done.
  - unfold Health.sync_db_route, Health.db_route, local_answers.
    rewrite healthCheckSync_eq.
    destruct (Db.syncPool w) as [p|]; simpl; [|done].
    by destruct (Db.l_fault (Db.localDb w)).
  - unfold Health.remote_db_route, Health.db_route, remote_answers.
    rewrite healthCheckRemote_eq.
    destruct (Db.remotePool w) as [p|]; simpl; [|done].
    by destruct (Db.r_fault (Db.remoteDb w)).
  - rewrite sync_db_route_status. by destruct (local_answers w).
  - rewrite remote_db_route_status. by destruct (remote_answers w).
Qed.

(** X9. The connectivity flag of a status report, is_connected for the
    sync status and is_client_connected for the upload status, is true
    exactly when the remote pool is assigned and the remote database
    answers; the two reports of one process agree on it, and it is true
    exactly when the remote health route answers 200. *)
Theorem connectivity_flags_agree w :
  (∀ st, Http.json (SyncStatus.handler w).1 = SyncStatus.Report st →
     SyncStatus.is_connected st = remote_answers w) ∧
  (∀ st, Http.json (UploadStatus.handler w).1 = UploadStatus.Report st →
     UploadStatus.is_client_connected st = remote_answers w) ∧
  (remote_answers w = true ↔
     Http.status (Health.remote_db_route w).1 = 200).
Proof.
  split_and!.
  - intros st Hst. pose proof (sync_status_reports w st Hst) as Hlocal.
    rewrite (SyncStatusSpec.sync_report_eq w Hlocal) in Hst.
    by injection Hst as <-.
  - intros st Hst. pose proof (upload_status_reports w st Hst) as Hlocal.
    rewrite (UploadStatusSpec.upload_report_eq w Hlocal) in Hst.
    by injection Hst as <-.
  - rewrite remote_db_route_status. by destruct (remote_answers w).
Qed.

(** X10. The two status routes report the same queue_size for one
    process; it lies between 0 and the number of readings, and it is 0
    exactly when every reading is synchronized. *)
Theorem queue_size_consistent w st st' :
  Http.json (SyncStatus.handler w).1 = SyncStatus.Report st →
  Http.json (UploadStatus.handler w).1 = UploadStatus.Report st' →
  SyncStatus.queue_size st = UploadStatus.queue_size st' ∧
  0 ≤ SyncStatus.queue_size st
    ≤ Z.of_nat (length (Db.l_meter_reading (Db.localDb w))) ∧
  (SyncStatus.queue_size st = 0 ↔
     Forall (λ r, Db.is_synchronized r = true)
            (Db.l_meter_reading (Db.localDb w))).
Proof.
  intros Hst Hst'.
  pose proof (sync_status_reports w st Hst) as Hlocal.
  rewrite (SyncStatusSpec.sync_report_eq w Hlocal) in Hst.
  rewrite (UploadStatusSpec.upload_report_eq w Hlocal) in Hst'.
  injection Hst as <-. injection Hst' as <-. simpl.
  set (readings := Db.l_meter_reading (Db.localDb w)).
  split_and!; [done|lia| |].
  - pose proof (length_filter (λ r, Db.is_synchronized r = false) readings).
    lia.
  - split.
    + intros Hzero. apply Forall_forall. intros r Hr.
      destruct (Db.is_synchronized r) eqn:Hs; [done|].
      assert (Hnil : filter (λ r, Db.is_synchronized r = false) readings = [])
        by (apply nil_length_inv; lia).
      by destruct (filter_nil_not_elem_of _ _ r Hnil Hs).
    + intros Hall. rewrite filter_none; [done|].
      intros r Hr Hs. rewrite Forall_forall in Hall.
      specialize (Hall r Hr). congruence.
Qed.

Lemma queue_size_consistent_witness :
  let w := Sample.running Sample.local_with_history Sample.remote_up in
  ∃ st st',
    Http.json (SyncStatus.handler w).1 = SyncStatus.Report st ∧
    Http.json (UploadStatus.handler w).1 = UploadStatus.Report st' ∧
    SyncStatus.queue_size st = UploadStatus.queue_size st' ∧
    0 ≤ SyncStatus.queue_size st ≤ 3 ∧
    (SyncStatus.queue_size st = 0 ↔
       Forall (λ r, Db.is_synchronized r = true) Sample.readings).
Proof.
  intros w.
  eexists _, _. split; [by vm_compute|]. split; [by vm_compute|].
  apply (queue_size_consistent w); by vm_compute.
Defined.

End StatusSpec.

(** ** The routes that only read *)

Module ReadSpec.
Import Run RunSpec LogSpec.

(** A reading statement sent through [syncPool_query] completes as
    [syncPool_read] says. *)
Lemma syncPool_read_query {A} (stmt : Db.Statement) (exec : Db.LocalDb → A) w :
  (syncPool_query stmt (λ db, (Js.Normal (exec db), db)) w).1
  = syncPool_read exec w.
Proof.
  unfold syncPool_query, syncPool_read.
  destruct w as [[p|] rp [[msg|] lt lr ll] r clk tr con]; reflexivity.
Qed.

Lemma syncPool_read_eq {A} (exec : Db.LocalDb → A) w :
  local_answers w = true → syncPool_read exec w = Js.Normal (exec (Db.localDb w)).
Proof.
  intros [[p Hp] Hup]%local_answers_spec. unfold syncPool_read.
  by rewrite Hp, Hup.
Qed.

Lemma syncPool_read_throws {A} (exec : Db.LocalDb → A) w :
  local_answers w = false → ∃ e, syncPool_read exec w = Js.Throw e.
Proof.
  intros [Hp|[msg Hmsg]]%HealthSpec.local_answers_false; unfold syncPool_read.
  - rewrite Hp. by eexists.
  - destruct (Db.syncPool w); rewrite ?Hmsg; by eexists.
Qed.

(** X11. GET /api/local/tenant answers 500 exactly when the local
    database does not answer, 404 exactly when it answers and the tenant
    table is empty, and 200 otherwise; the row of a 200 is a row of the
    table, without its api_key. *)
Theorem local_tenant_answer w :
  let r := LocalTenant.response w in
  (Http.status r = 500 ↔ local_answers w = false) ∧
  (Http.status r = 404 ↔
     local_answers w = true ∧ Db.l_tenant (Db.localDb w) = ∅) ∧
  (Http.status r = 200 ↔
     local_answers w = true ∧ Db.l_tenant (Db.localDb w) ≠ ∅) ∧
  (∀ row, Http.json r = LocalTenant.Found row →
     ∃ k t, Db.l_tenant (Db.localDb w) !! k = Some t ∧
            row = TenantSync.data_of t).
Proof.
  simpl. unfold LocalTenant.response.
  destruct (local_answers w) eqn:Hlocal.
  - rewrite (syncPool_read_eq _ w Hlocal). simpl.
    destruct (map_to_list (Db.l_tenant (Db.localDb w))) as [|[k t] rest]
      eqn:Hlist; simpl.
    + apply map_to_list_empty_iff in Hlist.
      split_and!; [done|done|split; [done|by intros [_ ?]]|done].
    + assert (Hin : (k, t) ∈ map_to_list (Db.l_tenant (Db.localDb w)))
        by (rewrite Hlist; left).
      apply elem_of_map_to_list in Hin.
      assert (Db.l_tenant (Db.localDb w) ≠ ∅)
        by (intros Hempty; by rewrite Hempty, lookup_empty in Hin).
      split_and!; [done|split; [done|by intros [_ ?]]|done|].
      intros row [= <-]. by exists k, t.
  - destruct (syncPool_read_throws LocalTenant.select_tenant_limit_1 w Hlocal)
      as [e ->]. simpl.
    split_and!; [done|split; [done|by intros [? _]]
                |split; [done|by intros [? _]]|done].
Qed.

Section round_trip.
Variable tenant_key : Js.Value → option Z.

(** X12. A tenant sync that answers 200 makes the read route answer 200:
    the tenant of the response can be read back.  When the local table was
    empty before, GET /api/local/tenant answered 404 (the local database
    answering), and after the sync it answers exactly the tenant_data of
    the sync response. *)
Theorem sync_then_read tenant_id w r w' :
  TenantSync.handler tenant_key tenant_id w = (r, w') →
  Http.status r = 200 →
  Http.status (LocalTenant.response w') = 200 ∧
  (Db.l_tenant (Db.localDb w) = ∅ →
     Http.status (LocalTenant.response w) = 404 ∧
     ∃ message result data,
       Http.json r = TenantSync.Synced message result data ∧
       LocalTenant.response w' = Http.res_json (LocalTenant.Found data)).
Proof.
  intros Hr H200.
  destruct (TenantSyncSpec.handler_200 _ _ _ _ _ Hr H200)
    as (remote & rest & _ & _ & _ & Hlocal & -> & ->).
  assert (Hlocal' : local_answers
            (set_localDb (TenantSync.upserted remote (Db.localDb w))
               (sent (Db.Local, Db.UpsertTenant remote)
                  (sent (Db.Remote, Db.SelectTenantById tenant_id) w))) = true)
    by done.
  split.
  - apply (local_tenant_answer _). split; [done|]. simpl.
    apply insert_non_empty.
  - intros Hempty. split.
    + apply (local_tenant_answer w). by split.
    + eexists _, _, _. split; [reflexivity|].
      unfold LocalTenant.response. rewrite (syncPool_read_eq _ _ Hlocal').
      simpl. rewrite Hempty. unfold TenantSync.upserted_row.
      rewrite lookup_empty, insert_empty, map_to_list_singleton. done.
Qed.

End round_trip.

Lemma sync_then_read_witness :
  let first := TenantSync.handler Sample.as_number (Js.Num 7)
                 (Sample.running Sample.empty_local Sample.remote_up) in
  Http.status (LocalTenant.response first.2) = 200 ∧
  (Db.l_tenant (Db.localDb (Sample.running Sample.empty_local Sample.remote_up))
     = ∅ →
   Http.status
     (LocalTenant.response (Sample.running Sample.empty_local Sample.remote_up))
     = 404 ∧
   ∃ message result data,
     Http.json first.1 = TenantSync.Synced message result data ∧
     LocalTenant.response first.2 = Http.res_json (LocalTenant.Found data)).
Proof.
  intros first.
  apply (sync_then_read Sample.as_number (Js.Num 7)
           (Sample.running Sample.empty_local Sample.remote_up) first.1 first.2).
  - apply surjective_pairing.
  - reflexivity.
Defined.

(** X13. When the local database answers, the upload log route answers
    200 with at most 20 entries, all of operation type "upload", most
    recent first.  Each entry shows an upload row of the sync log: the
    row's id as sync_operation_id, its operation type, its batch size as
    readings_count, its success flag, its error message and its
    completion time as created_at.  No upload row is left out that is
    more recent than one listed, and the list is empty exactly when the
    log has no upload row.  The first entry carries the time that the
    upload status route reports as the last upload's.  Nothing here
    depends on the order in which the database returns rows completed at
    the same time. *)
Theorem upload_log_answer w :
  local_answers w = true →
  ∃ entries,
    UploadLog.response w = Http.res_json (UploadLog.Entries entries) ∧
    (length entries ≤ 20)%nat ∧
    Forall (λ e, UploadLog.operation_type e = "upload") entries ∧
    StronglySorted UploadLog.entries_most_recent_first entries ∧
    (∀ e, e ∈ entries →
       ∃ log, log ∈ Db.l_sync_log (Db.localDb w) ∧
         UploadLog.sync_operation_id e = Db.id log ∧
         UploadLog.operation_type e = Db.operation_type log ∧
         UploadLog.readings_count e = Db.batch_size log ∧
         UploadLog.success e = Db.success log ∧
         UploadLog.error_message e = Db.error_message log ∧
         UploadLog.created_at e = Db.synced_at log) ∧
    (∀ log e, log ∈ Db.l_sync_log (Db.localDb w) →
       Db.operation_type log = "upload" → e ∈ entries →
       UploadLog.mkEntry (Db.id log) (Db.operation_type log)
         (Db.batch_size log) (Db.success log) (Db.error_message log)
         (Db.synced_at log) ∈ entries ∨
       Db.synced_at log ≤ UploadLog.created_at e) ∧
    (entries = [] ↔
       Forall (λ log, Db.operation_type log ≠ "upload")
              (Db.l_sync_log (Db.localDb w))) ∧
    (∀ st, Http.json (UploadStatus.handler w).1 = UploadStatus.Report st →
       UploadStatus.last_upload_time st
         = UploadLog.created_at <$> head entries).
Proof.
  intros Hlocal. unfold UploadLog.response.
  rewrite (syncPool_read_eq _ w Hlocal). simpl.
  set (uploads := filter (λ l, Db.operation_type l = "upload")
                         (Db.l_sync_log (Db.localDb w))).
  set (sorted := merge_sort more_recent uploads).
  assert (Hperm : sorted ≡ₚ uploads) by apply merge_sort_Permutation.
  assert (Hsorted : StronglySorted more_recent sorted) by apply sorted_log.
  eexists. split; [reflexivity|].
  split_and!.
  - rewrite length_fmap, length_take. lia.
  - apply Forall_forall.
    intros e (log & -> & Hlog%subseteq_take)%list_elem_of_fmap.
    rewrite Hperm in Hlog. by apply list_elem_of_filter in Hlog as [? _].
  - apply (StronglySorted_fmap _ more_recent); [done|].
    rewrite <- (take_drop 20 sorted) in Hsorted.
    by apply StronglySorted_app_1_l in Hsorted.
  - intros e (log & -> & Hlog%subseteq_take)%list_elem_of_fmap.
    rewrite Hperm in Hlog. apply list_elem_of_filter in Hlog as [_ ?].
    by exists log.
  - intros log e Hlog Hup (log' & -> & Hlog')%list_elem_of_fmap.
    assert (Hin : log ∈ sorted)
      by (rewrite Hperm; by apply list_elem_of_filter).
    rewrite <- (take_drop 20 sorted) in Hin, Hsorted.
    apply elem_of_app in Hin as [Htaken|Hleft].
    + left. by apply (list_elem_of_fmap_2 UploadLog.as_entry).
    + right. by apply (StronglySorted_app_1_elem_of _ _ _ _ _ Hsorted).
  - split.
    + intros Hnil. apply fmap_nil_inv in Hnil.
      assert (sorted = []) as Hs by (by destruct sorted).
      rewrite Hs in Hperm. apply Permutation_nil_l in Hperm.
      apply Forall_forall. intros log Hlog Hup.
      assert (log ∈ uploads) as Hin by (by apply list_elem_of_filter).
      rewrite <- Hperm in Hin. by apply elem_of_nil in Hin.
    + intros Hnone.
      assert (uploads = []) as Hu.
      { apply filter_none. intros log Hlog. rewrite Forall_forall in Hnone.
        by apply Hnone. }
      rewrite Hu in Hperm. apply Permutation_nil_r in Hperm.
      by rewrite Hperm.
  - intros st Hst.
    rewrite (UploadStatusSpec.upload_report_eq w Hlocal) in Hst.
    injection Hst as <-. simpl. fold uploads. fold sorted.
    by destruct sorted.
Qed.

Global Instance newer_total : Total Readings.newer.
Proof. intros a b. unfold Readings.newer. lia. Qed.

Global Instance newer_trans : Transitive Readings.newer.
Proof. intros a b c. unfold Readings.newer. lia. Qed.

(** X14. The number of hours of the readings route is the parsed
    parameter, and 24 when the parameter is missing, not a number, or 0,
    so that a request for 0 hours gets the readings of the last 24.  When
    the local database answers, the route answers 500 with the server's
    message if the server refuses to evaluate the start of the window
    (hours so many that the start is not a timestamp), and otherwise 200
    with at most 1000 rows, newest first.  Each row shows a reading
    created within the last [hours] hours: its identifier, its meter, its
    creation time as timestamp, its sync status, its synchronized flag and
    its retry count.  No reading of the window is left out that is newer
    than a row listed. *)
Theorem readings_answer (out_of_range : Z → Z → option string) parsed w :
  local_answers w = true →
  let hours := Readings.hours_of parsed in
  let since := Db.clock w - hours * Readings.ms_per_hour in
  (parsed = None ∨ parsed = Some 0 → hours = 24) ∧
  (∀ h, parsed = Some h → h ≠ 0 → hours = h) ∧
  (∀ msg, out_of_range (Db.clock w) hours = Some msg →
     Readings.response out_of_range parsed w
       = Http.mkResponse 500 (Readings.Failed msg)) ∧
  (out_of_range (Db.clock w) hours = None →
   ∃ rows,
     Readings.response out_of_range parsed w
       = Http.res_json (Readings.Rows rows) ∧
     (length rows ≤ 1000)%nat ∧
     StronglySorted Readings.newest_first rows ∧
     (∀ row, row ∈ rows →
        since ≤ Readings.timestamp row ∧
        ∃ r, r ∈ Db.l_meter_reading (Db.localDb w) ∧
          Readings.meter_reading_id row = Db.meter_reading_id r ∧
          Readings.meter_id row = Db.meter_id r ∧
          Readings.timestamp row = Db.created_at r ∧
          Readings.sync_status row = Db.sync_status r ∧
          Readings.is_synchronized row = Db.is_synchronized r ∧
          Readings.retry_count row = Db.retry_count r) ∧
     (∀ r row, r ∈ Db.l_meter_reading (Db.localDb w) →
        since ≤ Db.created_at r → row ∈ rows →
        Readings.mkRow (Db.meter_reading_id r) (Db.meter_id r)
          (Db.created_at r) (Db.sync_status r) (Db.is_synchronized r)
          (Db.retry_count r) ∈ rows ∨
        Db.created_at r ≤ Readings.timestamp row)).
Proof.
  intros Hlocal. cbn zeta. split_and!.
  - by intros [->| ->].
  - intros h -> Hh. simpl. by rewrite bool_decide_eq_false_2.
  - intros msg Hrefused.
    unfold Readings.response, Readings.query. cbn zeta.
    rewrite (syncPool_read_eq _ w Hlocal).
    unfold Readings.recent_readings. by rewrite Hrefused.
  - intros Haccepted.
    unfold Readings.response, Readings.query. cbn zeta.
    rewrite (syncPool_read_eq _ w Hlocal).
    unfold Readings.recent_readings. rewrite Haccepted. simpl.
    set (since := Db.clock w - Readings.hours_of parsed * Readings.ms_per_hour).
    set (window := filter (λ r, since ≤ Db.created_at r)
                          (Db.l_meter_reading (Db.localDb w))).
    set (sorted := merge_sort Readings.newer window).
    assert (Hperm : sorted ≡ₚ window) by apply merge_sort_Permutation.
    assert (Hsorted : StronglySorted Readings.newer sorted)
      by (apply StronglySorted_merge_sort; apply _).
    eexists. split; [reflexivity|]. split_and!.
    + rewrite length_fmap, length_take. lia.
    + apply (StronglySorted_fmap _ Readings.newer); [done|].
      rewrite <- (take_drop 1000 sorted) in Hsorted.
      by apply StronglySorted_app_1_l in Hsorted.
    + intros row (r & -> & Hr%subseteq_take)%list_elem_of_fmap.
      rewrite Hperm in Hr. apply list_elem_of_filter in Hr as [? ?].
      split; [done|]. by exists r.
    + intros r row Hr Hsince (r' & -> & Hr')%list_elem_of_fmap.
      assert (Hin : r ∈ sorted)
        by (rewrite Hperm; by apply list_elem_of_filter).
      rewrite <- (take_drop 1000 sorted) in Hin, Hsorted.
      apply elem_of_app in Hin as [Htaken|Hleft].
      * left. by apply (list_elem_of_fmap_2 Readings.as_row).
      * right. by apply (StronglySorted_app_1_elem_of _ _ _ _ _ Hsorted).
Qed.

(** At time 1000 with three readings created at 100, 200 and 300: a
    request for 0 hours is answered with the three of them, newest first,
    and a request for 60000000 hours with 500, the start of the window
    being before the first timestamp. *)
Lemma readings_answer_witness :
  let w := Sample.running Sample.local_with_history Sample.remote_up in
  Readings.hours_of (Some 0) = 24 ∧
  Readings.response Timestamp.out_of_range (Some 0) w
    = Http.res_json (Readings.Rows
        [ Readings.mkRow 3 11 300 "pending" false 0;
          Readings.mkRow 2 10 200 "failed" false 3;
          Readings.mkRow 1 10 100 "synchronized" true 0 ]) ∧
  Readings.response Timestamp.out_of_range (Some 60000000) w
    = Http.mkResponse 500 (Readings.Failed "timestamp out of range").
Proof.
  intros w.
  destruct (readings_answer Timestamp.out_of_range (Some 0) w eq_refl)
    as (Hdefault & _ & _ & Hrows).
  destruct (readings_answer Timestamp.out_of_range (Some 60000000) w eq_refl)
    as (_ & _ & Hrefused & _).
  split; [apply Hdefault; by right|].
  split; [|by apply Hrefused].
  destruct (Hrows eq_refl) as (rows & Heq & _).
  rewrite Heq. vm_compute in Heq. injection Heq as <-. reflexivity.
Defined.

Lemma upload_log_answer_witness :
  let w := Sample.running Sample.local_with_history Sample.remote_up in
  ∃ entries,
    UploadLog.response w = Http.res_json (UploadLog.Entries entries) ∧
    (length entries ≤ 20)%nat ∧
    Forall (λ e, UploadLog.operation_type e = "upload") entries ∧
    StronglySorted UploadLog.entries_most_recent_first entries ∧
    (∀ e, e ∈ entries →
       ∃ log, log ∈ Sample.sync_log ∧
         UploadLog.sync_operation_id e = Db.id log ∧
         UploadLog.operation_type e = Db.operation_type log ∧
         UploadLog.readings_count e = Db.batch_size log ∧
         UploadLog.success e = Db.success log ∧
         UploadLog.error_message e = Db.error_message log ∧
         UploadLog.created_at e = Db.synced_at log) ∧
    (∀ log e, log ∈ Sample.sync_log →
       Db.operation_type log = "upload" → e ∈ entries →
       UploadLog.mkEntry (Db.id log) (Db.operation_type log)
         (Db.batch_size log) (Db.success log) (Db.error_message log)
         (Db.synced_at log) ∈ entries ∨
       Db.synced_at log ≤ UploadLog.created_at e) ∧
    (entries = [] ↔
       Forall (λ log, Db.operation_type log ≠ "upload") Sample.sync_log) ∧
    (∀ st, Http.json (UploadStatus.handler w).1 = UploadStatus.Report st →
       UploadStatus.last_upload_time st
         = UploadLog.created_at <$> head entries).
Proof.
  intros w. apply (upload_log_answer w). reflexivity.
Defined.

End ReadSpec.

(** ** The monitor, alone and in front of the server *)

Module ProbeSpec.
Import Monitor MonitorSpec Run RunSpec Frame FrameSpec StatusSpec.

(** X15. The monitor keeps no history: the state after a pass is decided
    by that pass alone, whatever the state before it, so the state of a
    running monitor is that of its latest pass; and repeating a pass under
    the same network changes nothing. *)
Theorem latest_pass_decides net prev prev' passes :
  checkAllConnections net prev = checkAllConnections net prev' ∧
  run_monitor (passes ++ [net]) = checkAllConnections net initial_status ∧
  checkAllConnections net (checkAllConnections net prev)
    = checkAllConnections net prev.
Proof.
  split_and!; [done| |done].
  unfold run_monitor. by rewrite foldl_app.
Qed.

(** X16. A longer timeout never turns a connected endpoint into a
    disconnected one: a probe that succeeds under one timeout succeeds
    under every longer one, and settles at the same time. *)
Theorem longer_timeout_keeps_connected net t t' :
  checkConnection net t = true → t ≤ t' →
  checkConnection_timed net t' = checkConnection_timed net t.
Proof.
  intros (a & st & -> & Ha & Hst)%checkConnection_true Hle.
  unfold checkConnection_timed, fetch.
  by rewrite !bool_decide_eq_true_2 by lia.
Qed.

Lemma longer_timeout_keeps_connected_witness :
  checkConnection_timed (Responds 120 204) 30000
  = checkConnection_timed (Responds 120 204) CHECK_TIMEOUT.
Proof.
  apply (longer_timeout_keeps_connected (Responds 120 204) CHECK_TIMEOUT 30000).
  - reflexivity.
  - unfold CHECK_TIMEOUT. lia.
Defined.

(** The status each probed route answers with, and what it keeps. *)
Lemma answer_eq e w :
  Probe.answer e w =
  (match e with
   | health_sync_db => if local_answers w then 200 else 503
   | health_remote_db => if remote_answers w then 200 else 503
   | local_sync_status => if local_answers w then 200 else 500
   end,
   (Probe.answer e w).2).
Proof.
  destruct e; simpl.
  - rewrite <- sync_db_route_status. by destruct (Health.sync_db_route w).
  - rewrite <- remote_db_route_status. by destruct (Health.remote_db_route w).
  - rewrite <- sync_status_status. by destruct (SyncStatus.handler w).
Qed.

Lemma answer_world e w :
  ∃ more, (Probe.answer e w).2 = sent_all more w.
Proof.
  destruct e; simpl.
  - pose proof (sync_db_route_world w) as Hw.
    destruct (Health.sync_db_route w) as [r w']. simpl in *. by eexists.
  - pose proof (remote_db_route_world w) as Hw.
    destruct (Health.remote_db_route w) as [r w']. simpl in *. by eexists.
  - pose proof (sync_status_world w) as Hw.
    destruct (SyncStatus.handler w) as [r w']. simpl in *. by eexists.
Qed.

Lemma answers_after_sent_all more w :
  local_answers (sent_all more w) = local_answers w ∧
  remote_answers (sent_all more w) = remote_answers w.
Proof. done. Qed.

(** X17. A pass of the monitor against this server, with every answer
    arriving before the timer fires: the local database is shown connected
    exactly when it answers, the remote database exactly when it answers,
    and the remote API, which is probed through /api/local/sync-status,
    exactly when the local database answers, whatever the remote database
    does.  Hence the two aggregate flags coincide after such a pass, and
    an unreachable local database makes the remote system show as not
    connected. *)
Theorem pass_against_server latency w prev :
  (∀ e, latency e < CHECK_TIMEOUT) →
  let status := (Probe.pass latency w prev).1 in
  (syncDb status = CONNECTED ↔ local_answers w = true) ∧
  (remoteDb status = CONNECTED ↔ remote_answers w = true) ∧
  (remoteApi status = CONNECTED ↔ local_answers w = true) ∧
  isRemoteSystemConnected status = isAllConnected status ∧
  (local_answers w = false → isRemoteSystemConnected status = false) ∧
  isAllConnected status = local_answers w && remote_answers w.
Proof.
  intros Hlat. unfold Probe.pass.
  rewrite (answer_eq health_sync_db w).
  destruct (answer_world health_sync_db w) as [m1 ->].
  rewrite (answer_eq health_remote_db).
  destruct (answer_world health_remote_db (sent_all m1 w)) as [m2 ->].
  rewrite (answer_eq local_sync_status).
  destruct (answer_world local_sync_status (sent_all m2 (sent_all m1 w)))
    as [m3 ->].
  change (remote_answers (sent_all m1 w)) with (remote_answers w).
  change (local_answers (sent_all m2 (sent_all m1 w))) with (local_answers w).
  cbn zeta. cbn [fst].
  unfold isRemoteSystemConnected, isAllConnected, checkAllConnections,
    checkConnection, checkConnection_timed, fetch.
  cbn [syncDb remoteDb remoteApi set_syncDb set_remoteDb set_remoteApi].
  rewrite !bool_decide_eq_true_2 by apply Hlat.
  destruct (local_answers w), (remote_answers w); by vm_compute.
Qed.

Lemma pass_against_server_witness :
  let status := (Probe.pass (λ _, 40)
                   (Sample.running Sample.local_down Sample.remote_up)
                   initial_status).1 in
  (syncDb status = CONNECTED ↔
     local_answers (Sample.running Sample.local_down Sample.remote_up) = true) ∧
  (remoteDb status = CONNECTED ↔
     remote_answers (Sample.running Sample.local_down Sample.remote_up) = true) ∧
  (remoteApi status = CONNECTED ↔
     local_answers (Sample.running Sample.local_down Sample.remote_up) = true) ∧
  isRemoteSystemConnected status = isAllConnected status ∧
  (local_answers (Sample.running Sample.local_down Sample.remote_up) = false →
     isRemoteSystemConnected status = false) ∧
  isAllConnected status
    = local_answers (Sample.running Sample.local_down Sample.remote_up) &&
      remote_answers (Sample.running Sample.local_down Sample.remote_up).
Proof.
  apply (pass_against_server (λ _, 40)
           (Sample.running Sample.local_down Sample.remote_up) initial_status).
  intros e. unfold CHECK_TIMEOUT. lia.
Defined.

End ProbeSpec.

(** ** The connection indicator *)

Module IndicatorSpec.
Import Monitor MonitorSpec Indicator.

(** A text without a line feed is not a label followed by a line feed. *)
Lemma checking_has_no_line_feed label rest :
  label +:+ LF +:+ rest ≠ "Checking...".
Proof.
  intros H.
  repeat (destruct label as [|? label]; simpl in H;
          [discriminate|injection H as _ H]).
  destruct label; discriminate.
Qed.

(** X18. The indicator tells the four states apart by its text, for every
    label, while its colour only tells three groups apart: green exactly
    for connected, grey exactly for checking, and the same red for
    disconnected and error. *)
Theorem indicator_shows_state label s1 s2 :
  (getStatusText label s1 = getStatusText label s2 → s1 = s2) ∧
  (getStatusColor s1 = "#4caf50" ↔ s1 = CONNECTED) ∧
  (getStatusColor s1 = "#cccccc" ↔ s1 = CHECKING) ∧
  (getStatusColor s1 = "#f44336" ↔ s1 = DISCONNECTED ∨ s1 = ERROR) ∧
  (getStatusColor s1 = getStatusColor s2 ↔
     s1 = s2 ∨ (s1 = DISCONNECTED ∧ s2 = ERROR) ∨
     (s1 = ERROR ∧ s2 = DISCONNECTED)).
Proof.
  split_and!.
  - destruct s1, s2; simpl; intros H; try done;
      try (by destruct (checking_has_no_line_feed _ _ H));
      try (by destruct (checking_has_no_line_feed _ _ (eq_sym H)));
      apply (inj (String.append label)) in H; discriminate.
  - destruct s1; simpl; split; intros; done.
  - destruct s1; simpl; split; intros; done.
  - destruct s1; simpl; split; intros H; try done; auto;
      destruct H; done.
  - destruct s1, s2; simpl; split; intros H; try done; auto;
      destruct H as [?|[[? ?]|[? ?]]]; done.
Qed.

(** X19. A tooltip that is given and not empty is shown as it is, in every
    state; an empty tooltip is treated like a missing one and gives way to
    the text that the state decides. *)
Theorem tooltip_override label state tooltip :
  (∀ t, tooltip = Some t → t ≠ "" → getTooltipText label state tooltip = t) ∧
  (tooltip = None ∨ tooltip = Some "" →
     getTooltipText label state tooltip = getTooltipText label state None) ∧
  getTooltipText label state None ≠ "".
Proof.
  split_and!.
  - intros t -> Ht. unfold getTooltipText. simpl.
    by rewrite bool_decide_eq_false_2.
  - by intros [->| ->].
  - unfold getTooltipText. simpl. destruct state; simpl; [done|..];
      by destruct label.
Qed.

(** X20. After a pass of the monitor no indicator is grey: the indicator
    of each endpoint is green with the text "Connected" under its label
    when the endpoint's request was answered with a 2xx status in time,
    and red with the text "Disconnected" otherwise. *)
Theorem indicator_after_pass net prev e label :
  let state := endpoint_state e (checkAllConnections net prev) in
  getStatusColor state ≠ "#cccccc" ∧
  getStatusText label state ≠ "Checking..." ∧
  (answered_2xx_in_time (net e) CHECK_TIMEOUT →
     getStatusColor state = "#4caf50" ∧
     getStatusText label state = label +:+ LF +:+ "Connected") ∧
  (¬ answered_2xx_in_time (net e) CHECK_TIMEOUT →
     getStatusColor state = "#f44336" ∧
     getStatusText label state = label +:+ LF +:+ "Disconnected").
Proof.
  simpl. rewrite checkAllConnections_endpoint.
  rewrite <- (checkConnection_true (net e) CHECK_TIMEOUT).
  destruct (checkConnection (net e) CHECK_TIMEOUT); simpl.
  - split_and!; [done|apply checking_has_no_line_feed|done|done].
  - split_and!; [done|apply checking_has_no_line_feed|done|done].
Qed.

End IndicatorSpec.

(** ** How requests compose *)

Module ComposeSpec.
Import Run RunSpec Frame FrameSpec.

(** The answer of every route is the same after more statements were
    sent. *)
Lemma sync_status_after_sent more w :
  (SyncStatus.handler (sent_all more w)).1 = (SyncStatus.handler w).1.
Proof.
  unfold SyncStatus.handler, SyncStatus.route, bind, syncPool_query,
    first_count, ret, remote_probe, try_catch, remotePool_query.
  destruct w as [[p|] [q|] [[m|] lt lr ll] [[m'|] rt] clk tr con];
    reflexivity.
Qed.

Lemma upload_status_after_sent more w :
  (UploadStatus.handler (sent_all more w)).1 = (UploadStatus.handler w).1.
Proof.
  unfold UploadStatus.handler, UploadStatus.route, bind, syncPool_query,
    first_count, ret, remote_probe, try_catch, remotePool_query.
  destruct w as [[p|] [q|] [[m|] lt lr ll] [[m'|] rt] clk tr con];
    reflexivity.
Qed.

Lemma health_after_sent more w :
  (Health.sync_db_route (sent_all more w)).1 = (Health.sync_db_route w).1 ∧
  (Health.remote_db_route (sent_all more w)).1 = (Health.remote_db_route w).1 ∧
  (Health.health_route (sent_all more w)).1 = (Health.health_route w).1.
Proof.
  unfold Health.sync_db_route, Health.remote_db_route, Health.db_route.
  rewrite !HealthSpec.healthCheckSync_eq, !HealthSpec.healthCheckRemote_eq.
  destruct w as [[p|] [q|] [[m|] lt lr ll] [[m'|] rt] clk tr con];
    by split_and!.
Qed.

Section compose.
Variable tenant_key : Js.Value → option Z.

Local Abbreviation tenant_sync := (TenantSync.handler tenant_key).
Local Abbreviation remote_lookup := (TenantSync.remote_lookup tenant_key).

Lemma tenant_sync_after_sent more tenant_id w :
  (tenant_sync tenant_id (sent_all more w)).1 = (tenant_sync tenant_id w).1.
Proof.
  rewrite !TenantSyncSpec.handler_eq.
  change (remote_lookup tenant_id (sent_all more w))
    with (remote_lookup tenant_id w).
  destruct (Js.truthy tenant_id); simpl; [|done].
  destruct (Db.remotePool w) as [p|]; [|done].
  destruct (remote_lookup tenant_id w) as [[|remote rest]|e]; simpl;
    [done| |done].
  destruct (Db.syncPool w) as [q|]; [|done].
  by destruct (Db.l_fault (Db.localDb w)).
Qed.

(** X21. Reading does not interfere: after a request to any route but the
    tenant sync, every route (the tenant sync, the two status routes, the
    health routes, the tenant read and the upload log) answers what it
    would have answered before, at the same reading of the clock. *)
Theorem reads_do_not_interfere req w :
  (∀ tenant_id, req ≠ App.PostTenantSync tenant_id) →
  let w' := (App.serve tenant_key req w).2 in
  (∀ tenant_id, (tenant_sync tenant_id w').1 = (tenant_sync tenant_id w).1) ∧
  (SyncStatus.handler w').1 = (SyncStatus.handler w).1 ∧
  (UploadStatus.handler w').1 = (UploadStatus.handler w).1 ∧
  (Health.sync_db_route w').1 = (Health.sync_db_route w).1 ∧
  (Health.remote_db_route w').1 = (Health.remote_db_route w).1 ∧
  LocalTenant.response w' = LocalTenant.response w ∧
  UploadLog.response w' = UploadLog.response w.
Proof.
  intros Hreq.
  destruct (AppSpec.other_routes_only_read tenant_key req w Hreq)
    as (more & Hw & _).
  simpl. rewrite Hw.
  destruct (health_after_sent more w) as (Hs & Hr & _).
  split_and!; try done.
  - intros tenant_id. apply tenant_sync_after_sent.
  - apply sync_status_after_sent.
  - apply upload_status_after_sent.
Qed.

(** X22. Syncs of two different tenants commute.  If, from one process,
    a sync of each answers 200 and their remote records have different
    identifiers, then each still answers 200, with the same response at
    the same reading of the clock, after the other, and the local tenant
    table is the same in both orders. *)
Theorem syncs_of_different_tenants_commute id1 id2 w r1 w1 r2 w2 t1 t2 rest1 rest2 :
  tenant_sync id1 w = (r1, w1) → Http.status r1 = 200 →
  tenant_sync id2 w = (r2, w2) → Http.status r2 = 200 →
  remote_lookup id1 w = Js.Normal (t1 :: rest1) →
  remote_lookup id2 w = Js.Normal (t2 :: rest2) →
  Db.tenant_id t1 ≠ Db.tenant_id t2 →
  (tenant_sync id2 w1).1 = r2 ∧
  (tenant_sync id1 w2).1 = r1 ∧
  Db.l_tenant (Db.localDb (tenant_sync id2 w1).2)
    = Db.l_tenant (Db.localDb (tenant_sync id1 w2).2).
Proof.
  intros H1 H1ok H2 H2ok Hl1 Hl2 Hne.
  destruct (TenantSyncSpec.handler_200 _ _ _ _ _ H1 H1ok)
    as (t1' & rest1' & Htr1 & [p Hp] & Hl1' & Hlocal & -> & ->).
  destruct (TenantSyncSpec.handler_200 _ _ _ _ _ H2 H2ok)
    as (t2' & rest2' & Htr2 & _ & Hl2' & _ & -> & ->).
  rewrite Hl1 in Hl1'. injection Hl1' as <- <-.
  rewrite Hl2 in Hl2'. injection Hl2' as <- <-.
  apply local_answers_spec in Hlocal as [[q Hq] Hf].
  rewrite !TenantSyncSpec.handler_eq, Htr1, Htr2. simpl.
  rewrite Hp.
  change (remote_lookup id2 (set_localDb _ _)) with (remote_lookup id2 w).
  change (remote_lookup id1 (set_localDb _ _)) with (remote_lookup id1 w).
  rewrite Hl1, Hl2, Hq, Hf. simpl.
  unfold TenantSync.upserted_row.
  rewrite !lookup_insert_ne by done.
  split_and!; [done|done|].
  by apply insert_insert_ne.
Qed.

End compose.

Lemma reads_do_not_interfere_witness :
  let w := Sample.running Sample.local_with_history Sample.remote_up in
  let w' := (App.serve Sample.as_number App.GetUploadStatus w).2 in
  (∀ tenant_id,
     (TenantSync.handler Sample.as_number tenant_id w').1
     = (TenantSync.handler Sample.as_number tenant_id w).1) ∧
  (SyncStatus.handler w').1 = (SyncStatus.handler w).1 ∧
  (UploadStatus.handler w').1 = (UploadStatus.handler w).1 ∧
  (Health.sync_db_route w').1 = (Health.sync_db_route w).1 ∧
  (Health.remote_db_route w').1 = (Health.remote_db_route w).1 ∧
  LocalTenant.response w' = LocalTenant.response w ∧
  UploadLog.response w' = UploadLog.response w.
Proof.
  intros w.
  apply (reads_do_not_interfere Sample.as_number App.GetUploadStatus w).
  intros tenant_id. discriminate.
Defined.

Lemma syncs_of_different_tenants_commute_witness :
  let w := Sample.running Sample.empty_local TwoTenants.remote in
  let a := TenantSync.handler Sample.as_number (Js.Num 7) w in
  let b := TenantSync.handler Sample.as_number (Js.Num 8) w in
  (TenantSync.handler Sample.as_number (Js.Num 8) a.2).1 = b.1 ∧
  (TenantSync.handler Sample.as_number (Js.Num 7) b.2).1 = a.1 ∧
  Db.l_tenant (Db.localDb (TenantSync.handler Sample.as_number (Js.Num 8) a.2).2)
    = Db.l_tenant (Db.localDb (TenantSync.handler Sample.as_number (Js.Num 7) b.2).2).
Proof.
  intros w a b.
  apply (syncs_of_different_tenants_commute Sample.as_number
           (Js.Num 7) (Js.Num 8) w a.1 a.2 b.1 b.2
           Sample.acme TwoTenants.globex [] []).
  - apply surjective_pairing.
  - reflexivity.
  - apply surjective_pairing.
  - reflexivity.
  - reflexivity.
  - reflexivity.
  - discriminate.
Defined.

End ComposeSpec.
